(** * space_robotics_bench: sky dome light selection and the SpaceMouse adapter

    A shallow embedding of

    - [space_robotics_bench/assets/light/sky.py] ([sky_from_env_cfg]), and
    - [space_robotics_bench/core/teleop_devices/se3_spacemouse.py]
      ([Se3SpaceMouse]),

    with the properties their specification states about them.

    Python floats are IEEE 754 binary64 numbers and are modelled by Rocq's
    primitive floats, which are the same numbers with the same rounding;
    dictionaries are finite maps with string keys. *)

From Stdlib Require Import PrimFloat Ascii String.
From stdpp Require Import base option list strings gmap relations.

Set Warnings "-inexact-float,-register-all".
Local Open Scope string_scope.

(** ** Python values, exceptions and results *)

(** The exceptions the two modules can raise.  [ValueError] carries the
    message the source builds; for the exceptions raised by the interpreter
    itself only the class is kept. *)
Inductive exn : Type :=
| TypeError
| ValueError (msg : string)
| IndexError
| AttributeError
| ZeroDivisionError
| OverflowError.

(** The outcome of a call: a returned value or a raised exception. *)
Inductive result (A : Type) : Type :=
| Ok (a : A)
| Raise (e : exn).
Arguments Ok {A} a.
Arguments Raise {A} e.

(** The values that travel through [Dict[str, Any]] keyword maps and
    through the [texture_file] local. *)
Inductive PyVal : Type :=
| VNone
| VBool (b : bool)
| VFloat (f : float)
| VStr (s : string)
| VTuple (items : list PyVal).

Definition is_str (v : PyVal) : bool :=
  match v with VStr _ => true | _ => false end.

(** The line terminator [print] writes after its argument, and the one the
    source writes as a backslash escape. *)
Definition newline : string := String (Ascii.ascii_of_nat 10) EmptyString.

(** ** [os.path.join] on two components (posixpath) *)

Definition startswith_sep (s : string) : bool :=
  match s with
  | String c _ => bool_decide (c = "/"%char)
  | EmptyString => false
  end.

Fixpoint endswith_sep (s : string) : bool :=
  match s with
  | EmptyString => false
  | String c EmptyString => bool_decide (c = "/"%char)
  | String _ rest => endswith_sep rest
  end.

Definition path_join (a b : string) : string :=
  if startswith_sep b then b
  else if bool_decide (a = "") || endswith_sep a then a +:+ b
  else a +:+ "/" +:+ b.

(** [s.endswith(suffix)] *)
Fixpoint endswith (s suffix : string) : bool :=
  bool_decide (s = suffix) ||
  match s with
  | EmptyString => false
  | String _ rest => endswith rest suffix
  end.

Module Sky.

(** Modelled from the spec: the scenario tag [env_utils.Scenario] is declared
    outside the two source files.  It is a closed enumeration of which the
    selector names [EARTH], [MARS] and [ORBIT]; every other member is
    [OTHER], told apart by its name. *)
Inductive Scenario : Type :=
| EARTH
| MARS
| ORBIT
| OTHER (tag : string).

(** [env_utils.EnvironmentConfig], of which the selector reads one field. *)
Record EnvironmentConfig : Type := mkEnvironmentConfig {
  scenario : Scenario
}.

(** [sim_utils.DomeLightCfg] as the selector builds it: the two keywords it
    writes out and the caller's [spawn_kwargs]. *)
Record DomeLightCfg : Type := mkDomeLightCfg {
  intensity : float;
  texture_file : PyVal;
  spawn_extra : gmap string PyVal
}.

(** [AssetBaseCfg] as the selector builds it. *)
Record AssetBaseCfg : Type := mkAssetBaseCfg {
  prim_path : string;
  spawn : DomeLightCfg;
  extra : gmap string PyVal
}.

Definition default_prim_path : string := "/World/sky".

(** What the selector imports from outside the two files: the two asset
    roots, the [light_intensity] property of a scenario, and the field names
    the two configuration classes declare (their generated constructors
    refuse any other keyword). *)
Class Installation : Type := mkInstallation {
  ISAAC_NUCLEUS_DIR : string;
  SRB_ASSETS_DIR_SRB_HDRI : string;
  light_intensity : Scenario -> float;
  DomeLightCfg_fields : gset string;
  AssetBaseCfg_fields : gset string
}.

Section Selector.

Context {installation : Installation}.

(** A call [C(k1=v1, ..., **star)]: a key of [star] that repeats a keyword
    written out in the call is a [TypeError] (multiple values for a keyword
    argument), and so is a key that [C] does not declare. *)
Definition check_keywords (written : gset string) (fields : gset string)
    (star : gmap string PyVal) : result unit :=
  if decide (dom star ## written) then
    if decide (dom star ⊆ fields) then Ok tt else Raise TypeError
  else Raise TypeError.

Definition new_DomeLightCfg (intensity : float) (texture_file : PyVal)
    (spawn_kwargs : gmap string PyVal) : result DomeLightCfg :=
  match check_keywords {["intensity"; "texture_file"]} DomeLightCfg_fields
          spawn_kwargs with
  | Ok _ => Ok (mkDomeLightCfg intensity texture_file spawn_kwargs)
  | Raise e => Raise e
  end.

Definition new_AssetBaseCfg (prim_path : string) (spawn : DomeLightCfg)
    (kwargs : gmap string PyVal) : result AssetBaseCfg :=
  match check_keywords {["prim_path"; "spawn"]} AssetBaseCfg_fields kwargs with
  | Ok _ => Ok (mkAssetBaseCfg prim_path spawn kwargs)
  | Raise e => Raise e
  end.

(** The [match] statement of the selector: the value [texture_file] holds
    after it.  The EARTH arm is a parenthesised f-string followed by a
    comma, which is a tuple of one string. *)
Definition select_texture (s : Scenario) : option PyVal :=
  match s with
  | EARTH =>
      Some (VTuple [VStr (ISAAC_NUCLEUS_DIR +:+
        "/Materials/Textures/Skies/PolyHaven/kloofendal_43d_clear_puresky_4k.hdr")])
  | MARS => Some (VStr (path_join SRB_ASSETS_DIR_SRB_HDRI "martian_sky_day.hdr"))
  | ORBIT => Some (VStr (path_join SRB_ASSETS_DIR_SRB_HDRI "low_lunar_orbit.jpg"))
  | OTHER _ => None
  end.

Definition sky_from_env_cfg (env_cfg : EnvironmentConfig) (prim_path : string)
    (spawn_kwargs kwargs : gmap string PyVal) : result (option AssetBaseCfg) :=
  match select_texture (scenario env_cfg) with
  | None => Ok None
  | Some texture_file =>
      match new_DomeLightCfg
              (0.25 * light_intensity (scenario env_cfg))%float
              texture_file spawn_kwargs with
      | Raise e => Raise e
      | Ok light =>
          match new_AssetBaseCfg prim_path light kwargs with
          | Raise e => Raise e
          | Ok cfg => Ok (Some cfg)
          end
      end
  end.

(** The keyword maps both constructors take: no key repeats a keyword the
    selector writes out, and every key is a declared field. *)
Definition overrides_accepted (spawn_kwargs kwargs : gmap string PyVal) : Prop :=
  dom spawn_kwargs ## ({["intensity"; "texture_file"]} : gset string) ∧
  dom spawn_kwargs ⊆ DomeLightCfg_fields ∧
  dom kwargs ## ({["prim_path"; "spawn"]} : gset string) ∧
  dom kwargs ⊆ AssetBaseCfg_fields.

Definition known (s : Scenario) : bool :=
  match s with OTHER _ => false | _ => true end.

End Selector.

(** *** The selector at a concrete configuration *)

(** An installation to evaluate the selector at: asset roots, scenario
    intensities and the fields of the two configuration classes. *)
Definition sample_nucleus_dir : string := "omniverse://localhost/NVIDIA/Assets/Isaac/4.0/Isaac".
Definition sample_hdri_dir : string := "/srb/assets/srb/hdri".

Definition sample_light_intensity (s : Scenario) : float :=
  match s with
  | EARTH => 1000
  | MARS => 600
  | ORBIT => 1360
  | OTHER _ => 0
  end%float.

Definition sample_DomeLightCfg_fields : gset string :=
  {[ "intensity"; "texture_file"; "texture_format"; "color"; "exposure";
     "visible"; "visible_in_primary_ray" ]}.

Definition sample_AssetBaseCfg_fields : gset string :=
  {[ "prim_path"; "spawn"; "init_state"; "collision_group"; "debug_vis" ]}.

Definition sample_installation : Installation :=
  mkInstallation sample_nucleus_dir sample_hdri_dir sample_light_intensity
    sample_DomeLightCfg_fields sample_AssetBaseCfg_fields.

Definition sample_sky : EnvironmentConfig -> string ->
    gmap string PyVal -> gmap string PyVal -> result (option AssetBaseCfg) :=
  @sky_from_env_cfg sample_installation.

Definition sample_color : gmap string PyVal :=
  {[ "color" := VTuple [VFloat 1; VFloat 0.5; VFloat 0.5] ]}.

(** *** Properties of the selector *)

Section SelectorProperties.

Context {installation : Installation}.

Lemma check_keywords_accepts written fields star :
  dom star ## written -> dom star ⊆ fields ->
  check_keywords written fields star = Ok tt.
Proof.
  intros Hfresh Hdecl. unfold check_keywords.
  destruct (decide (dom star ## written)) as [_|Hn]; [|by destruct Hn].
  destruct (decide (dom star ⊆ fields)) as [_|Hn]; [done|by destruct Hn].
Qed.

Lemma check_keywords_repeated written fields star :
  ¬ dom star ## written ->
  check_keywords written fields star = Raise TypeError.
Proof.
  intros Hrep. unfold check_keywords.
  destruct (decide (dom star ## written)) as [Hd|_]; [by destruct Hrep|done].
Qed.

Lemma check_keywords_inv written fields star u :
  check_keywords written fields star = Ok u ->
  dom star ## written ∧ dom star ⊆ fields.
Proof.
  unfold check_keywords. intros H.
  destruct (decide (dom star ## written)); [|discriminate].
  destruct (decide (dom star ⊆ fields)); [done|discriminate].
Qed.

Lemma select_texture_known s :
  known s = true -> ∃ tex, select_texture s = Some tex.
Proof. destruct s; simpl; intros Hk; try discriminate; eauto. Qed.

(** The shape of a successful call: the descriptor is made of the path
    given, the computed intensity, the texture of the scenario and the two
    keyword maps, which both constructors took. *)
Lemma sky_from_env_cfg_Some env_cfg prim_path spawn_kwargs kwargs d :
  sky_from_env_cfg env_cfg prim_path spawn_kwargs kwargs = Ok (Some d) ->
  ∃ tex,
    select_texture (scenario env_cfg) = Some tex ∧
    overrides_accepted spawn_kwargs kwargs ∧
    d = mkAssetBaseCfg prim_path
          (mkDomeLightCfg (0.25 * light_intensity (scenario env_cfg))%float
             tex spawn_kwargs)
          kwargs.
Proof.
  unfold sky_from_env_cfg, new_DomeLightCfg, new_AssetBaseCfg.
  destruct (select_texture (scenario env_cfg)) as [tex|]; [|discriminate].
  destruct (check_keywords _ DomeLightCfg_fields spawn_kwargs) as [u1|e1] eqn:H1;
    [|discriminate].
  destruct (check_keywords _ AssetBaseCfg_fields kwargs) as [u2|e2] eqn:H2;
    [|discriminate].
  intros [= <-]. exists tex.
  apply check_keywords_inv in H1 as [? ?], H2 as [? ?].
  by repeat split.
Qed.

Lemma sky_from_env_cfg_accepted env_cfg prim_path spawn_kwargs kwargs tex :
  select_texture (scenario env_cfg) = Some tex ->
  overrides_accepted spawn_kwargs kwargs ->
  sky_from_env_cfg env_cfg prim_path spawn_kwargs kwargs =
    Ok (Some (mkAssetBaseCfg prim_path
                (mkDomeLightCfg (0.25 * light_intensity (scenario env_cfg))%float
                   tex spawn_kwargs)
                kwargs)).
Proof.
  intros Htex (Hs1 & Hs2 & Hk1 & Hk2).
  unfold sky_from_env_cfg, new_DomeLightCfg, new_AssetBaseCfg.
  rewrite Htex.
  by rewrite (check_keywords_accepts _ _ _ Hs1 Hs2),
             (check_keywords_accepts _ _ _ Hk1 Hk2).
Qed.

(** C1. The selector returns a descriptor for EARTH, MARS and ORBIT and
    [None], without raising, for every other tag.  For the three known tags
    the result is never [None], and it is a descriptor whenever the
    caller's keyword maps are ones the constructors take (the defaults,
    both empty, are). *)
Theorem sky_descriptor_for_known_tags env_cfg prim_path spawn_kwargs kwargs :
  match scenario env_cfg with
  | OTHER _ =>
      sky_from_env_cfg env_cfg prim_path spawn_kwargs kwargs = Ok None
  | _ =>
      sky_from_env_cfg env_cfg prim_path spawn_kwargs kwargs ≠ Ok None ∧
      (overrides_accepted spawn_kwargs kwargs ->
       ∃ d, sky_from_env_cfg env_cfg prim_path spawn_kwargs kwargs = Ok (Some d))
  end.
Proof.
  destruct (scenario env_cfg) as [| | |tag] eqn:Hs.
  4: { unfold sky_from_env_cfg. by rewrite Hs. }
  all: split;
    [ unfold sky_from_env_cfg; rewrite Hs; simpl;
      destruct (new_DomeLightCfg _ _ _); [|discriminate];
      destruct (new_AssetBaseCfg _ _ _); discriminate
    | intros Hacc;
      destruct (select_texture_known (scenario env_cfg)) as [tex Htex];
      [ by rewrite Hs
      | eexists; by apply sky_from_env_cfg_accepted ] ].
Qed.

(** C2. Whenever the selector returns a descriptor, its intensity is
    [0.25 * scenario.light_intensity], the binary64 product. *)
Theorem sky_intensity_quarter env_cfg prim_path spawn_kwargs kwargs d :
  sky_from_env_cfg env_cfg prim_path spawn_kwargs kwargs = Ok (Some d) ->
  intensity (spawn d) = (0.25 * light_intensity (scenario env_cfg))%float.
Proof.
  intros H. apply sky_from_env_cfg_Some in H as (tex & _ & _ & ->). done.
Qed.

(** C3, as the code has it.  For a known scenario, keyword maps the
    constructors take give a descriptor that carries the computed
    intensity, the texture of the scenario and the caller's entries beside
    them, unchanged; a [spawn_kwargs] with an [intensity] or a
    [texture_file] entry gives the keyword twice, which raises
    [TypeError]. *)
Theorem sky_overrides_layered env_cfg prim_path spawn_kwargs kwargs :
  known (scenario env_cfg) = true ->
  (overrides_accepted spawn_kwargs kwargs ->
   ∃ tex,
     select_texture (scenario env_cfg) = Some tex ∧
     sky_from_env_cfg env_cfg prim_path spawn_kwargs kwargs =
       Ok (Some (mkAssetBaseCfg prim_path
                   (mkDomeLightCfg
                      (0.25 * light_intensity (scenario env_cfg))%float
                      tex spawn_kwargs)
                   kwargs))) ∧
  (¬ dom spawn_kwargs ## ({["intensity"; "texture_file"]} : gset string) ->
   sky_from_env_cfg env_cfg prim_path spawn_kwargs kwargs = Raise TypeError).
Proof.
  intros Hk. destruct (select_texture_known _ Hk) as [tex Htex]. split.
  - intros Hacc. exists tex. split; [done|].
    by apply sky_from_env_cfg_accepted.
  - intros Hrep. unfold sky_from_env_cfg, new_DomeLightCfg.
    rewrite Htex. by rewrite (check_keywords_repeated _ _ _ Hrep).
Qed.

(** C4, on the code.  For EARTH and the default keyword maps the texture
    the descriptor carries is a tuple holding the path, not the path: the
    EARTH arm ends in a comma.  The MARS and ORBIT arms give strings. *)
Theorem sky_earth_texture_is_a_tuple prim_path :
  sky_from_env_cfg (mkEnvironmentConfig EARTH) prim_path ∅ ∅ =
    Ok (Some (mkAssetBaseCfg prim_path
                (mkDomeLightCfg (0.25 * light_intensity EARTH)%float
                   (VTuple [VStr (ISAAC_NUCLEUS_DIR +:+
                      "/Materials/Textures/Skies/PolyHaven/kloofendal_43d_clear_puresky_4k.hdr")])
                   ∅)
                ∅)) ∧
  (∀ tex, select_texture EARTH = Some tex -> is_str tex = false) ∧
  (∀ tex, select_texture MARS = Some tex -> is_str tex = true) ∧
  (∀ tex, select_texture ORBIT = Some tex -> is_str tex = true).
Proof.
  split; [|by repeat split; intros tex [= <-]].
  apply sky_from_env_cfg_accepted; [done|].
  unfold overrides_accepted. rewrite !dom_empty_L. set_solver.
Qed.

End SelectorProperties.

(** Both constructors take the sample keyword maps. *)
Lemma sample_color_accepted :
  @overrides_accepted sample_installation sample_color ∅.
Proof.
  unfold overrides_accepted.
  repeat split; (eapply bool_decide_unpack; vm_compute; exact I).
Defined.

(** The selector at MARS with a [color] entry in [spawn_kwargs]. *)
Lemma sky_descriptor_for_known_tags_witness :
  ∃ d, sample_sky (mkEnvironmentConfig MARS) default_prim_path sample_color ∅
       = Ok (Some d).
Proof.
  pose proof (@sky_descriptor_for_known_tags sample_installation
                (mkEnvironmentConfig MARS) default_prim_path sample_color ∅)
    as [_ H].
  exact (H sample_color_accepted).
Defined.

(** The selector at MARS with the defaults: a quarter of 600. *)
Lemma sky_intensity_quarter_witness :
  let d := mkAssetBaseCfg default_prim_path
             (mkDomeLightCfg 150 (VStr "/srb/assets/srb/hdri/martian_sky_day.hdr") ∅) ∅ in
  sample_sky (mkEnvironmentConfig MARS) default_prim_path ∅ ∅ = Ok (Some d) ∧
  intensity (spawn d) = (0.25 * 600)%float.
Proof.
  assert (Hrun : sample_sky (mkEnvironmentConfig MARS) default_prim_path ∅ ∅ =
                 Ok (Some (mkAssetBaseCfg default_prim_path
                   (mkDomeLightCfg 150
                      (VStr "/srb/assets/srb/hdri/martian_sky_day.hdr") ∅) ∅)))
    by (vm_compute; reflexivity).
  split; [exact Hrun|].
  exact (@sky_intensity_quarter sample_installation _ _ _ _ _ Hrun).
Defined.

(** C3, as the spec states it, fails: an [intensity] entry in [spawn_kwargs]
    does not replace the computed intensity, the call raises. *)
Lemma sky_intensity_override_raises :
  sample_sky (mkEnvironmentConfig MARS) default_prim_path
    {[ "intensity" := VFloat 5 ]} ∅ = Raise TypeError.
Proof. vm_compute. reflexivity. Qed.

(** A [color] entry is carried beside the intensity and the texture. *)
Lemma sky_overrides_layered_witness :
  known MARS = true ∧
  @overrides_accepted sample_installation sample_color ∅ ∧
  sample_sky (mkEnvironmentConfig MARS) default_prim_path sample_color ∅ =
    Ok (Some (mkAssetBaseCfg default_prim_path
                (mkDomeLightCfg 150
                   (VStr "/srb/assets/srb/hdri/martian_sky_day.hdr") sample_color)
                ∅)).
Proof.
  split; [reflexivity|]. split; [exact sample_color_accepted|].
  destruct (@sky_overrides_layered sample_installation
              (mkEnvironmentConfig MARS) default_prim_path sample_color ∅
              eq_refl) as [H _].
  destruct (H sample_color_accepted) as (tex & Htex & Hrun).
  injection Htex as Htex. subst tex. exact Hrun.
Defined.

(** *** The outcomes of the selector and the textures it names *)

Section SelectorOutcomes.

Context {installation : Installation}.

Lemma check_keywords_raises written fields star e :
  check_keywords written fields star = Raise e ->
  e = TypeError ∧ ¬ (dom star ## written ∧ dom star ⊆ fields).
Proof.
  unfold check_keywords. intros H.
  destruct (decide (dom star ## written)) as [Hd|Hd].
  - destruct (decide (dom star ⊆ fields)) as [Hs|Hs]; [discriminate|].
    injection H as <-. split; [done|]. by intros [_ ?].
  - injection H as <-. split; [done|]. by intros [? _].
Qed.

Lemma sky_from_env_cfg_raises env_cfg prim_path spawn_kwargs kwargs e :
  sky_from_env_cfg env_cfg prim_path spawn_kwargs kwargs = Raise e ->
  e = TypeError ∧ known (scenario env_cfg) = true ∧
  ¬ overrides_accepted spawn_kwargs kwargs.
Proof.
  unfold sky_from_env_cfg, new_DomeLightCfg, new_AssetBaseCfg, overrides_accepted.
  destruct (scenario env_cfg); simpl; try discriminate.
  all: destruct (check_keywords _ DomeLightCfg_fields spawn_kwargs)
         as [u1|e1] eqn:H1;
       [ destruct (check_keywords _ AssetBaseCfg_fields kwargs)
           as [u2|e2] eqn:H2; [discriminate|];
         intros [= <-]; apply check_keywords_raises in H2 as [-> Hn];
         split; [done|]; split; [done|]; intros (_ & _ & ? & ?); by apply Hn
       | intros [= <-]; apply check_keywords_raises in H1 as [-> Hn];
         split; [done|]; split; [done|]; intros (? & ? & _); by apply Hn ].
Qed.

Lemma sky_from_env_cfg_None env_cfg prim_path spawn_kwargs kwargs :
  sky_from_env_cfg env_cfg prim_path spawn_kwargs kwargs = Ok None ->
  known (scenario env_cfg) = false.
Proof.
  unfold sky_from_env_cfg.
  destruct (scenario env_cfg); simpl; try done.
  all: destruct (new_DomeLightCfg _ _ _); [|discriminate];
       destruct (new_AssetBaseCfg _ _ _); discriminate.
Qed.

(** X1. The three outcomes of the selector, each with the inputs that lead
    to it: [None] exactly for a tag the [match] does not name; a descriptor
    exactly for a named tag with keyword maps both constructors take; an
    exception exactly for a named tag with a keyword map one of them
    refuses, and then the exception is a [TypeError]. *)
Theorem sky_outcomes env_cfg prim_path spawn_kwargs kwargs :
  let r := sky_from_env_cfg env_cfg prim_path spawn_kwargs kwargs in
  (r = Ok None ↔ known (scenario env_cfg) = false) ∧
  ((∃ d, r = Ok (Some d)) ↔
   known (scenario env_cfg) = true ∧ overrides_accepted spawn_kwargs kwargs) ∧
  ((∃ e, r = Raise e) ↔
   known (scenario env_cfg) = true ∧ ¬ overrides_accepted spawn_kwargs kwargs) ∧
  (∀ e, r = Raise e -> e = TypeError).
Proof.
  intros r. subst r.
  destruct (sky_from_env_cfg env_cfg prim_path spawn_kwargs kwargs)
    as [[d|]|e] eqn:Hr.
  - apply sky_from_env_cfg_Some in Hr as Hd.
    destruct Hd as (tex & Htex & Hacc & _).
    assert (known (scenario env_cfg) = true) as Hk.
    { destruct (scenario env_cfg); simpl in *; done. }
    split; [rewrite Hk; split; discriminate|].
    split; [split; [done|eauto]|].
    split; [|discriminate].
    split; [by intros [? [=]]|by intros [_ ?]].
  - apply sky_from_env_cfg_None in Hr as Hk.
    split; [done|].
    split; [split; [by intros [? [=]]|rewrite Hk; by intros [[=] _]]|].
    split; [|discriminate].
    split; [by intros [? [=]]|rewrite Hk; by intros [[=] _]].
  - apply sky_from_env_cfg_raises in Hr as (-> & Hk & Hn).
    split; [rewrite Hk; split; discriminate|].
    split; [split; [by intros [? [=]]|by intros [_ ?]]|].
    split; [split; [done|eauto]|].
    by intros ? [= <-].
Qed.

Lemma append_inj_l (a b c : string) : a +:+ b = a +:+ c -> b = c.
Proof.
  induction a as [|ch a IH]; simpl; [done|]. intros [= H]. by apply IH.
Qed.

Lemma endswith_refl (b : string) : endswith b b = true.
Proof.
  destruct b; cbn [endswith]; by rewrite bool_decide_eq_true_2.
Qed.

Lemma endswith_append (a c b : string) :
  endswith c b = true -> endswith (a +:+ c) b = true.
Proof.
  intros H. induction a as [|ch a IH]; [exact H|].
  change (String ch a +:+ c) with (String ch (a +:+ c)).
  cbn [endswith]. rewrite IH. apply orb_true_r.
Qed.

Lemma prefix_append (a c : string) : String.prefix a (a +:+ c) = true.
Proof.
  induction a as [|ch a IH]; [by destruct c|].
  change (String ch a +:+ c) with (String ch (a +:+ c)).
  cbn [String.prefix]. by destruct (Ascii.ascii_dec ch ch).
Qed.

Lemma path_join_endswith (a b : string) : endswith (path_join a b) b = true.
Proof.
  unfold path_join. destruct (startswith_sep b); [apply endswith_refl|].
  destruct (_ || _); repeat apply endswith_append; apply endswith_refl.
Qed.

Lemma path_join_prefix (a b : string) :
  startswith_sep b = false -> String.prefix a (path_join a b) = true.
Proof.
  unfold path_join. intros ->. destruct (_ || _); apply prefix_append.
Qed.

(** X2. Whatever the asset root is, the MARS and the ORBIT texture are
    strings that start with the root and end in the file name of the
    scenario: [path.join] keeps the root, since neither file name is an
    absolute path. *)
Theorem sky_textures_under_asset_root :
  ∃ mars orbit,
    select_texture MARS = Some (VStr mars) ∧
    select_texture ORBIT = Some (VStr orbit) ∧
    String.prefix SRB_ASSETS_DIR_SRB_HDRI mars = true ∧
    endswith mars "martian_sky_day.hdr" = true ∧
    String.prefix SRB_ASSETS_DIR_SRB_HDRI orbit = true ∧
    endswith orbit "low_lunar_orbit.jpg" = true.
Proof.
  eexists _, _. split; [reflexivity|]. split; [reflexivity|].
  repeat split;
    first [by apply path_join_prefix | apply path_join_endswith].
Qed.

(** X3. No two scenarios share a texture, whatever the two asset roots are:
    a scenario with a texture is determined by it. *)
Theorem select_texture_injective s1 s2 :
  known s1 = true ->
  select_texture s1 = select_texture s2 ->
  s1 = s2.
Proof.
  intros Hk Heq.
  destruct s1, s2; simpl in *; try done; exfalso.
  all: injection Heq as Heq; revert Heq; unfold path_join; simpl;
       destruct (_ || _); intros Heq;
       repeat (apply append_inj_l in Heq); discriminate Heq.
Qed.

End SelectorOutcomes.

(** Two scenarios with one texture, at the sample installation. *)
Lemma select_texture_injective_witness :
  known ORBIT = true ∧
  @select_texture sample_installation ORBIT =
    Some (VStr "/srb/assets/srb/hdri/low_lunar_orbit.jpg") ∧
  ∀ s, @select_texture sample_installation s =
         Some (VStr "/srb/assets/srb/hdri/low_lunar_orbit.jpg") -> ORBIT = s.
Proof.
  split; [reflexivity|]. split; [reflexivity|].
  intros s Hs.
  exact (@select_texture_injective sample_installation ORBIT s eq_refl
           (eq_sym Hs)).
Defined.

End Sky.

Module SpaceMouse.

(** One axis of the driver's state tuple.  The tuple starts with the int 0
    in every axis; a packet for an axis puts the float the driver computed
    from it in its place. *)
Inductive Axis : Type :=
| NoPacket
| Reading (value : float).

(** [-a] for an axis: the int 0 negated is the int 0, a float changes its
    sign (so that the float zero becomes the negative zero). *)
Definition axis_neg (a : Axis) : Axis :=
  match a with
  | NoPacket => NoPacket
  | Reading value => Reading (- value)
  end.

(** [a * s] for an axis and a float: the int 0 is converted to the float
    zero first. *)
Definition axis_times (a : Axis) (s : float) : float :=
  match a with
  | NoPacket => 0 * s
  | Reading value => value * s
  end.

(** The motion state the driver hands to both callbacks
    ([pyspacemouse.SpaceNavigator]): the six axes the adapter reads. *)
Record SpaceNavigator : Type := mkSpaceNavigator {
  x : Axis;
  y : Axis;
  z : Axis;
  roll : Axis;
  pitch : Axis;
  yaw : Axis
}.

(** What [pyspacemouse.open] did: it returned a value, read for its truth,
    or it raised an exception, kept as the text [str(e)] gives. *)
Inductive OpenOutcome : Type :=
| OpenReturns (success : bool)
| OpenRaises (e : string).

(** The background thread object held in [_thread].  Its target is
    [_run_device], a loop with no exit, so a thread stays alive until an
    exception escapes one of its iterations. *)
Record Thread : Type := mkThread {
  daemon : bool;
  alive : bool
}.

(** What one [pyspacemouse.read] hands to the registered callbacks. *)
Inductive DriverEvent : Type :=
| Motion (state : SpaceNavigator)
| Buttons (state : SpaceNavigator) (buttons : list bool).

(** How [__del__] ends: [thread.join()] returns, waits for a thread that
    never exits, or the method raises. *)
Inductive Teardown : Type :=
| Joined
| Blocked
| TeardownRaises (e : exn).

(** [np.zeros(n)] *)
Definition zeros (n : nat) : list float := replicate n 0%float.

Definition open_failure_message : string :=
  "[ERROR] Failed to open a SpaceMouse device. Is it connected?".

(** What the thread takes from the interpreter: [time.sleep], which either
    returns or raises on the interval it is given, and the text that is
    printed to [sys.stderr] for an exception that ends a thread. *)
Class Runtime : Type := mkRuntime {
  time_sleep : float -> option exn;
  traceback_text : exn -> string
}.

Section Adapter.

(** The part of the program the registered actions act on.  An action is a
    zero-argument callable; it is taken to return and to leave the
    adapter's own attributes alone. *)
Context {World : Type}.

(** [Rotation.from_euler("XYZ", v).as_rotvec()] of scipy. *)
Variable euler_XYZ_as_rotvec : list float -> list float.

Context {runtime : Runtime}.

Definition Callable : Type := World -> World.

(** The attributes of an adapter.  [_thread] is [None] while the attribute
    has not been assigned. *)
Record Se3SpaceMouse : Type := mkSe3SpaceMouse {
  pos_sensitivity : float;
  rot_sensitivity : float;
  sleep_rate : float;
  _close_gripper : bool;
  _delta_pos : list float;
  _delta_rot : list float;
  _additional_callbacks : gmap string Callable;
  _thread : option Thread
}.

(** The adapter, the world its registered actions act on, and what has
    been printed to [sys.stderr]. *)
Record Machine : Type := mkMachine {
  self : Se3SpaceMouse;
  env : World;
  stderr : list string
}.

(** *** Attribute assignment *)

Definition with_close_gripper (b : bool) (a : Se3SpaceMouse) : Se3SpaceMouse :=
  mkSe3SpaceMouse (pos_sensitivity a) (rot_sensitivity a) (sleep_rate a)
    b (_delta_pos a) (_delta_rot a) (_additional_callbacks a) (_thread a).

Definition with_delta_pos (v : list float) (a : Se3SpaceMouse) : Se3SpaceMouse :=
  mkSe3SpaceMouse (pos_sensitivity a) (rot_sensitivity a) (sleep_rate a)
    (_close_gripper a) v (_delta_rot a) (_additional_callbacks a) (_thread a).

Definition with_delta_rot (v : list float) (a : Se3SpaceMouse) : Se3SpaceMouse :=
  mkSe3SpaceMouse (pos_sensitivity a) (rot_sensitivity a) (sleep_rate a)
    (_close_gripper a) (_delta_pos a) v (_additional_callbacks a) (_thread a).

Definition with_additional_callbacks (d : gmap string Callable)
    (a : Se3SpaceMouse) : Se3SpaceMouse :=
  mkSe3SpaceMouse (pos_sensitivity a) (rot_sensitivity a) (sleep_rate a)
    (_close_gripper a) (_delta_pos a) (_delta_rot a) d (_thread a).

Definition with_thread (t : option Thread) (a : Se3SpaceMouse) : Se3SpaceMouse :=
  mkSe3SpaceMouse (pos_sensitivity a) (rot_sensitivity a) (sleep_rate a)
    (_close_gripper a) (_delta_pos a) (_delta_rot a) (_additional_callbacks a) t.

(** *** Methods as state transformers that may raise

    A raised exception keeps the state reached so far. *)

Definition M (A : Type) : Type := Machine -> result A * Machine.

Definition ret {A} (a : A) : M A := fun m => (Ok a, m).

Definition bind {A B} (c : M A) (k : A -> M B) : M B :=
  fun m =>
    match c m with
    | (Ok a, m') => k a m'
    | (Raise e, m') => (Raise e, m')
    end.

Definition raise {A} (e : exn) : M A := fun m => (Raise e, m).

Definition get_self : M Se3SpaceMouse := fun m => (Ok (self m), m).

Definition assign (f : Se3SpaceMouse -> Se3SpaceMouse) : M unit :=
  fun m => (Ok tt, mkMachine (f (self m)) (env m) (stderr m)).

(** [f()] for a registered action [f] *)
Definition call (f : Callable) : M unit :=
  fun m => (Ok tt, mkMachine (self m) (f (env m)) (stderr m)).

(** [if c: body] *)
Definition when (c : bool) (body : M unit) : M unit :=
  if c then body else ret tt.

(** [l[i]] on a list *)
Definition getitem {A} (l : list A) (i : nat) : M A :=
  match l !! i with
  | Some v => ret v
  | None => raise IndexError
  end.

Notation "c1 ;; c2" := (bind c1 (fun _ => c2))
  (at level 100, c2 at level 200, right associativity).
Notation "v <- c1 ;; c2" := (bind c1 (fun v => c2))
  (at level 100, c1 at next level, c2 at level 200, right associativity).

Definition reset : M unit :=
  assign (with_close_gripper false) ;;
  assign (with_delta_pos (zeros 3)) ;;
  assign (with_delta_rot (zeros 3)).

(** The message of the [ValueError] that [add_callback] raises. *)
Definition unsupported_key_message (key : string) : string :=
  "Only left (L), right (R), and right-left (LR) buttons supported. Provided: "
  +:+ key +:+ ".".

Definition add_callback (key : string) (func : Callable) : M unit :=
  when (bool_decide (key ∉ ["L"; "R"; "LR"]))
    (raise (ValueError (unsupported_key_message key))) ;;
  a <- get_self ;;
  assign (with_additional_callbacks (<[key := func]> (_additional_callbacks a))).

Definition advance : M (list float * bool) :=
  a <- get_self ;;
  let rot_vec := euler_XYZ_as_rotvec (_delta_rot a) in
  ret ((_delta_pos a ++ rot_vec)%list, _close_gripper a).

Definition _cb_dof (state : SpaceNavigator) : M unit :=
  a <- get_self ;;
  assign (with_delta_pos
    [ axis_times (y state) (pos_sensitivity a);
      axis_times (axis_neg (x state)) (pos_sensitivity a);
      axis_times (z state) (pos_sensitivity a) ]) ;;
  assign (with_delta_rot
    [ axis_times (axis_neg (roll state)) (rot_sensitivity a);
      axis_times (axis_neg (pitch state)) (rot_sensitivity a);
      axis_times (axis_neg (yaw state)) (rot_sensitivity a) ]).

(** [if key in self._additional_callbacks.keys(): self._additional_callbacks[key]()] *)
Definition call_if_registered (key : string) : M unit :=
  a <- get_self ;;
  match _additional_callbacks a !! key with
  | Some f => call f
  | None => ret tt
  end.

Definition toggle_gripper : M unit :=
  a <- get_self ;;
  assign (with_close_gripper (negb (_close_gripper a))).

Definition _cb_button (state : SpaceNavigator) (buttons : list bool) : M unit :=
  b0 <- getitem buttons 0 ;;
  when b0 (reset ;; call_if_registered "L") ;;
  b1 <- getitem buttons 1 ;;
  when b1 (toggle_gripper ;; call_if_registered "R") ;;
  when (forallb id buttons) (call_if_registered "LR").

(** The defaults of the constructor's parameters *)
Definition default_pos_sensitivity : float := 0.4%float.
Definition default_rot_sensitivity : float := 0.8%float.
Definition default_rate : float := 1000%float.

(** The constructor.  [1.0 / rate] raises for a zero rate before anything
    else happens; otherwise the object is built whatever the driver does. *)
Definition __init__ (pos_sensitivity rot_sensitivity rate : float)
    (opened : OpenOutcome) (env0 : World) (stderr0 : list string) : result Machine :=
  if (rate =? 0)%float then Raise ZeroDivisionError
  else
    let a := mkSe3SpaceMouse pos_sensitivity rot_sensitivity (1 / rate)%float
               false (zeros 3) (zeros 3) ∅ None in
    match opened with
    | OpenReturns true =>
        Ok (mkMachine (with_thread (Some (mkThread true true)) a) env0 stderr0)
    | OpenReturns false =>
        Ok (mkMachine a env0 (stderr0 ++ [open_failure_message +:+ newline])%list)
    | OpenRaises e =>
        Ok (mkMachine a env0
              (stderr0 ++ [open_failure_message +:+ newline +:+ e +:+ newline])%list)
    end.

Definition __del__ (m : Machine) : Teardown :=
  match _thread (self m) with
  | None => TeardownRaises AttributeError
  | Some t => if alive t then Blocked else Joined
  end.

(** *** The background thread and the caller *)

Definition deliver (ev : DriverEvent) : M unit :=
  match ev with
  | Motion state => _cb_dof state
  | Buttons state buttons => _cb_button state buttons
  end.

Fixpoint deliver_all (evs : list DriverEvent) : M unit :=
  match evs with
  | [] => ret tt
  | ev :: rest => deliver ev ;; deliver_all rest
  end.

Definition thread_dies (a : Se3SpaceMouse) : Se3SpaceMouse :=
  with_thread (match _thread a with
               | Some t => Some (mkThread (daemon t) false)
               | None => None
               end) a.

(** An exception leaves [_run_device]: the thread is over, and the
    interpreter prints the traceback to [sys.stderr]. *)
Definition thread_ends (e : exn) (m : Machine) : Machine :=
  mkMachine (thread_dies (self m)) (env m) (stderr m ++ [traceback_text e])%list.

(** One iteration of [_run_device]: [pyspacemouse.read()] hands [evs] to
    the callbacks, then [time.sleep(self.sleep_rate)].  An exception that
    escapes a callback, or the sleep, ends the thread. *)
Definition _run_device_iteration (evs : list DriverEvent) (m : Machine) : Machine :=
  match deliver_all evs m with
  | (Ok _, m') =>
      match time_sleep (sleep_rate (self m')) with
      | None => m'
      | Some e => thread_ends e m'
      end
  | (Raise e, m') => thread_ends e m'
  end.

(** What can happen to a constructed adapter: its owner calls a public
    method, or its thread, if it has a live one, runs an iteration.  The
    callbacks are reached through [pyspacemouse.read] alone, which only
    [_run_device] calls. *)
Inductive step : Machine -> Machine -> Prop :=
| step_advance m : step m (advance m).2
| step_reset m : step m (reset m).2
| step_add_callback key func m : step m (add_callback key func m).2
| step_poll evs m t :
    _thread (self m) = Some t -> alive t = true ->
    step m (_run_device_iteration evs m).

Definition reachable : Machine -> Machine -> Prop := rtc step.

Definition open_failed (o : OpenOutcome) : bool :=
  match o with
  | OpenReturns true => false
  | _ => true
  end.

(** The action found under [key], or no action *)
Definition registered (a : Se3SpaceMouse) (key : string) : Callable :=
  default id (_additional_callbacks a !! key).

(** A computation that leaves the [_thread] attribute as it found it. *)
Definition keeps_thread {A} (c : M A) : Prop :=
  ∀ m, _thread (self (c m).2) = _thread (self m).

(** The state of an adapter no device has written to. *)
Definition quiet (m : Machine) : Prop :=
  _thread (self m) = None ∧
  _close_gripper (self m) = false ∧
  _delta_pos (self m) = zeros 3 ∧
  _delta_rot (self m) = zeros 3.

(** The thread exists and is running. *)
Definition thread_alive (m : Machine) : bool :=
  match _thread (self m) with
  | Some t => alive t
  | None => false
  end.

(** The events both callbacks take without raising: a button vector is
    indexed at 0 and at 1. *)
Definition well_formed (ev : DriverEvent) : bool :=
  match ev with
  | Motion _ => true
  | Buttons _ buttons => bool_decide (2 ≤ length buttons)%nat
  end.

(** [_run_device] over the first reads of the driver, the events of each
    read in a list: the loop goes on while no exception has ended the
    thread. *)
Fixpoint _run_device (reads : list (list DriverEvent)) (m : Machine) : Machine :=
  match reads with
  | [] => m
  | evs :: rest =>
      if thread_alive m then _run_device rest (_run_device_iteration evs m)
      else m
  end.

(** [time.sleep] returns on this interval. *)
Definition sleeps (interval : float) : bool :=
  match time_sleep interval with
  | None => true
  | Some _ => false
  end.

(** What holds of an adapter from its construction on: the settings are
    those the constructor left, both deltas have three entries, and the
    registry holds supported keys only. *)
Definition well_kept (pos_sens rot_sens rate : float) (m : Machine) : Prop :=
  pos_sensitivity (self m) = pos_sens ∧
  rot_sensitivity (self m) = rot_sens ∧
  sleep_rate (self m) = (1 / rate)%float ∧
  length (_delta_pos (self m)) = 3%nat ∧
  length (_delta_rot (self m)) = 3%nat ∧
  ∀ key, is_Some (_additional_callbacks (self m) !! key) -> key ∈ ["L"; "R"; "LR"].


End Adapter.

(** *** The adapter at concrete inputs *)

(** A world that records the names of the actions run on it. *)
Definition log (name : string) : @Callable (list string) :=
  fun w => (w ++ [name])%list.

(** An adapter in use: default sensitivities and rate, a live thread, the
    latch closed, deltas left by an earlier motion event. *)
Definition sample_adapter (callbacks : gmap string (@Callable (list string))) :
    @Machine (list string) :=
  mkMachine
    (mkSe3SpaceMouse 0.4 0.8 (1 / 1000) true [0.04; 0; 0]%float [0; 0; 0.08]%float
       callbacks (Some (mkThread true true)))
    [] [].

Definition sample_event : SpaceNavigator :=
  mkSpaceNavigator (Reading 1) (Reading 2) (Reading 3)
    (Reading 0.1) (Reading 0.2) (Reading 0.3).

(** An interpreter to run the thread on: [time.sleep] raises [ValueError]
    on a NaN and on a negative interval and [OverflowError] on one beyond
    its clock of nanoseconds in 64 bits, and the traceback names the
    exception. *)
Definition sample_sleep (secs : float) : option exn :=
  if PrimFloat.is_nan secs then Some (ValueError "Invalid value NaN (not a number)")
  else if (9223372036854775808 <? PrimFloat.abs (secs * 1000000000))%float
  then Some OverflowError
  else if (secs <? 0)%float then Some (ValueError "sleep length must be non-negative")
  else None.

Definition sample_traceback (e : exn) : string :=
  "Exception in thread Thread-1 (_run_device): " +:+
  match e with
  | TypeError => "TypeError"
  | ValueError msg => "ValueError: " +:+ msg
  | IndexError => "IndexError: list index out of range"
  | AttributeError => "AttributeError"
  | ZeroDivisionError => "ZeroDivisionError"
  | OverflowError => "OverflowError"
  end.

Definition sample_runtime : Runtime := mkRuntime sample_sleep sample_traceback.

(** For the small angles a device reports, the rotation vector of a set of
    Euler angles is, to first order, the angles themselves; this stands in
    for the rotation library where a concrete function is needed. *)
Definition first_order_rotvec (angles : list float) : list float := angles.

(** Unfolds the method bodies down to matches on the state. *)
Ltac run_method :=
  unfold _cb_button, _cb_dof, add_callback, advance, reset, toggle_gripper,
    call_if_registered, registered, getitem, when, bind, ret, raise, get_self,
    assign, call;
  simpl.

(** *** Properties of the callbacks *)

(** Two binary64 values are different when IEEE comparison tells them
    apart and the first is a number (it compares equal to itself). *)
Lemma float_neq (a b : float) :
  (a =? a)%float = true -> (a =? b)%float = false -> a ≠ b.
Proof. intros Hself Hcmp Heq. subst b. congruence. Qed.

Section AdapterProperties.

Context {World : Type}.
Variable euler_XYZ_as_rotvec : list float -> list float.
Context {runtime : Runtime}.

Implicit Types m : @Machine World.

(** C5, as the code has it.  The motion callback returns normally and sets
    [_delta_pos] to (y, -x, z) times the position sensitivity and
    [_delta_rot] to (-roll, -pitch, -yaw) times the rotation sensitivity,
    whatever the two held before; nothing else changes.  For an axis that
    holds a float each component is the binary64 product, the axis negated
    first where the sign says so; for an axis that still holds the int 0 of
    the driver the negation does nothing and the component is the float
    zero times the sensitivity: the positive zero at the default
    sensitivities, where a float zero negated gives the negative zero.  At
    the axes (1, 2, 3, 0.1, 0.2, 0.3) and
    the default sensitivities the products are
    (0.8, -0.4, 1.2000000000000002) and
    (-0.08000000000000002, -0.16000000000000003, -0.24). *)
Theorem cb_dof_remaps_and_scales :
  (∀ state m,
     _cb_dof state m =
       (Ok tt,
        mkMachine
          (mkSe3SpaceMouse
             (pos_sensitivity (self m)) (rot_sensitivity (self m))
             (sleep_rate (self m)) (_close_gripper (self m))
             [ axis_times (y state) (pos_sensitivity (self m));
               axis_times (axis_neg (x state)) (pos_sensitivity (self m));
               axis_times (z state) (pos_sensitivity (self m)) ]
             [ axis_times (axis_neg (roll state)) (rot_sensitivity (self m));
               axis_times (axis_neg (pitch state)) (rot_sensitivity (self m));
               axis_times (axis_neg (yaw state)) (rot_sensitivity (self m)) ]
             (_additional_callbacks (self m)) (_thread (self m)))
          (env m) (stderr m))) ∧
  (∀ value s,
     axis_times (Reading value) s = (value * s)%float ∧
     axis_times (axis_neg (Reading value)) s = ((- value) * s)%float) ∧
  (∀ s,
     axis_times NoPacket s = (0 * s)%float ∧
     axis_times (axis_neg NoPacket) s = (0 * s)%float) ∧
  (axis_times (axis_neg NoPacket) default_pos_sensitivity = 0%float ∧
   axis_times (axis_neg (Reading 0)) default_pos_sensitivity = (-0)%float) ∧
  (∀ rate latch pos rot callbacks thread (world : World) err,
     let m := mkMachine
                (mkSe3SpaceMouse default_pos_sensitivity default_rot_sensitivity
                   rate latch pos rot callbacks thread) world err in
     let m' := (_cb_dof
                  (mkSpaceNavigator (Reading 1) (Reading 2) (Reading 3)
                     (Reading 0.1) (Reading 0.2) (Reading 0.3)) m).2 in
     _delta_pos (self m') = [0.8; -0.4; 1.2000000000000002]%float ∧
     _delta_rot (self m') =
       [-0.08000000000000002; -0.16000000000000003; -0.24]%float).
Proof.
  split; [|split; [|split; [|split]]].
  - intros state m. reflexivity.
  - intros value s. split; reflexivity.
  - intros s. split; reflexivity.
  - split; vm_compute; reflexivity.
  - intros. split; vm_compute; reflexivity.
Qed.

(** What [reset] leaves. *)
Lemma reset_spec m :
  reset m =
    (Ok tt,
     mkMachine
       (mkSe3SpaceMouse (pos_sensitivity (self m)) (rot_sensitivity (self m))
          (sleep_rate (self m)) false (zeros 3) (zeros 3)
          (_additional_callbacks (self m)) (_thread (self m)))
       (env m) (stderr m)).
Proof. reflexivity. Qed.

(** [if key in ...: ...[key]()] runs the action found under [key] on the
    world, and is no more than that. *)
Lemma call_if_registered_spec key m :
  call_if_registered key m =
    (Ok tt, mkMachine (self m) (registered (self m) key (env m)) (stderr m)).
Proof.
  unfold call_if_registered, registered, bind, get_self, call, ret.
  destruct (_additional_callbacks (self m) !! key); by destruct m.
Qed.

Lemma bind_unfold {A B} (c : @M World A) (k : A -> @M World B) m :
  bind c k m =
    match c m with
    | (Ok a, m') => k a m'
    | (Raise e, m') => (Raise e, m')
    end.
Proof. reflexivity. Qed.

Lemma getitem_lookup {A} (l : list A) i v m :
  l !! i = Some v -> getitem l i m = (Ok v, m).
Proof. intros H. unfold getitem. by rewrite H. Qed.

Lemma getitem_out_of_range {A} (l : list A) i m :
  l !! i = None -> getitem l i m = (Raise IndexError, m).
Proof. intros H. unfold getitem. by rewrite H. Qed.

(** The body of the left branch. *)
Lemma reset_then_left m :
  bind reset (fun _ => call_if_registered "L") m =
    (Ok tt,
     mkMachine
       (mkSe3SpaceMouse (pos_sensitivity (self m)) (rot_sensitivity (self m))
          (sleep_rate (self m)) false (zeros 3) (zeros 3)
          (_additional_callbacks (self m)) (_thread (self m)))
       (registered (self m) "L" (env m)) (stderr m)).
Proof. unfold bind. rewrite reset_spec. by rewrite call_if_registered_spec. Qed.

(** The body of the right branch. *)
Lemma toggle_then_right m :
  bind toggle_gripper (fun _ => call_if_registered "R") m =
    (Ok tt,
     mkMachine (with_close_gripper (negb (_close_gripper (self m))) (self m))
       (registered (self m) "R" (env m)) (stderr m)).
Proof.
  unfold bind at 1. unfold toggle_gripper, bind, get_self, assign.
  by rewrite call_if_registered_spec.
Qed.

(** C6, as the code has it.  After a button event with the left button
    pressed, [_delta_pos] and [_delta_rot] are zero whatever the state was;
    the latch is what the right button says: false when it is not pressed
    (or the vector has no second entry, where indexing raises after the
    reset), true when it is pressed too, since the reset comes first and the
    toggle second. *)
Theorem cb_button_left_resets (state : SpaceNavigator) (buttons : list bool)
    (m : @Machine World) :
  buttons !! 0 = Some true ->
  let m' := (_cb_button state buttons m).2 in
  _delta_pos (self m') = zeros 3 ∧
  _delta_rot (self m') = zeros 3 ∧
  _close_gripper (self m') = default false (buttons !! 1).
Proof.
  intros Hleft. destruct buttons as [|b0 rest]; [discriminate|].
  injection Hleft as ->. unfold _cb_button.
  rewrite bind_unfold, (getitem_lookup _ _ true) by done.
  rewrite bind_unfold. change (when true ?b) with b.
  rewrite reset_then_left, bind_unfold.
  change ((true :: rest) !! 1) with (rest !! 0).
  destruct (rest !! 0) as [b1|] eqn:Hright.
  - rewrite (getitem_lookup _ _ b1) by done.
    rewrite bind_unfold. destruct b1.
    + change (when true ?b) with b. rewrite toggle_then_right.
      destruct (forallb id (true :: rest)); simpl;
        [by rewrite call_if_registered_spec|done].
    + simpl. destruct (forallb id rest); simpl;
        [by rewrite call_if_registered_spec|done].
  - by rewrite getitem_out_of_range.
Qed.

(** C7, as the code has it.  When every entry of a button vector of two or
    more is pressed, the callback returns normally having run all three
    branches in order: the reset and the "L" action, the toggle and the "R"
    action, then the "LR" action, each action when one is registered. *)
Theorem cb_button_all_pressed (state : SpaceNavigator) (buttons : list bool)
    (m : @Machine World) :
  (2 ≤ length buttons)%nat ->
  forallb id buttons = true ->
  _cb_button state buttons m =
    (Ok tt,
     mkMachine
       (mkSe3SpaceMouse (pos_sensitivity (self m)) (rot_sensitivity (self m))
          (sleep_rate (self m)) true (zeros 3) (zeros 3)
          (_additional_callbacks (self m)) (_thread (self m)))
       (registered (self m) "LR"
          (registered (self m) "R" (registered (self m) "L" (env m))))
       (stderr m)).
Proof.
  intros Hlen Hall.
  destruct buttons as [|b0 [|b1 rest]]; simpl in Hlen; [lia|lia|].
  destruct b0; [|discriminate]. destruct b1; [|discriminate].
  change (forallb id rest = true) in Hall.
  unfold _cb_button.
  rewrite bind_unfold, (getitem_lookup _ _ true) by done.
  rewrite bind_unfold. change (when true ?b) with b.
  rewrite reset_then_left.
  rewrite bind_unfold, (getitem_lookup _ _ true) by done.
  rewrite bind_unfold. change (when true ?b) with b.
  rewrite toggle_then_right.
  change (forallb id (true :: true :: rest)) with (forallb id rest).
  rewrite Hall. change (when true ?b) with b.
  by rewrite call_if_registered_spec.
Qed.

Lemma add_callback_supported key func m :
  key ∈ ["L"; "R"; "LR"] ->
  add_callback key func m =
    (Ok tt,
     mkMachine
       (with_additional_callbacks
          (<[key := func]> (_additional_callbacks (self m))) (self m))
       (env m) (stderr m)).
Proof.
  intros Hkey. run_method.
  rewrite bool_decide_eq_false_2; [done|]. by intros Hn.
Qed.

Lemma add_callback_unsupported key func m :
  key ∉ ["L"; "R"; "LR"] ->
  add_callback key func m = (Raise (ValueError (unsupported_key_message key)), m).
Proof. intros Hkey. run_method. by rewrite bool_decide_eq_true_2. Qed.

(** C8, as the code has it.  [add_callback] succeeds exactly for the keys
    "L", "R" and "LR", and then the registry holds the new action under the
    key, in place of an earlier one, and is otherwise as before; any other
    key raises [ValueError] and leaves the whole state as it was. *)
Theorem add_callback_keys key func m :
  (key ∈ ["L"; "R"; "LR"] ->
   let m' := (add_callback key func m).2 in
   (add_callback key func m).1 = Ok tt ∧
   _additional_callbacks (self m') !! key = Some func ∧
   (∀ other, other ≠ key ->
      _additional_callbacks (self m') !! other =
      _additional_callbacks (self m) !! other)) ∧
  (key ∉ ["L"; "R"; "LR"] ->
   add_callback key func m = (Raise (ValueError (unsupported_key_message key)), m)).
Proof.
  split; intros Hkey.
  - rewrite add_callback_supported by done. simpl.
    split; [done|]. split; [by rewrite lookup_insert_eq|].
    intros other Hne. by rewrite lookup_insert_ne.
  - by apply add_callback_unsupported.
Qed.

(** *** The adapter over its lifetime *)

Lemma keeps_thread_ret {A} (a : A) : keeps_thread (World:=World) (ret a).
Proof. by intros m. Qed.

Lemma keeps_thread_raise {A} e : keeps_thread (@raise World A e).
Proof. by intros m. Qed.

Lemma keeps_thread_get_self : keeps_thread (World:=World) get_self.
Proof. by intros m. Qed.

Lemma keeps_thread_call f : keeps_thread (World:=World) (call f).
Proof. by intros m. Qed.

Lemma keeps_thread_assign (f : @Se3SpaceMouse World -> @Se3SpaceMouse World) :
  (∀ a, _thread (f a) = _thread a) -> keeps_thread (assign f).
Proof. intros Hf m. apply Hf. Qed.

Lemma keeps_thread_bind {A B} (c : @M World A) (k : A -> @M World B) :
  keeps_thread c -> (∀ a, keeps_thread (k a)) -> keeps_thread (bind c k).
Proof.
  intros Hc Hk m. rewrite bind_unfold.
  specialize (Hc m). destruct (c m) as [[a|e] m']; simpl in *; [|done].
  by rewrite Hk.
Qed.

Lemma keeps_thread_when c (body : @M World unit) :
  keeps_thread body -> keeps_thread (when c body).
Proof. destruct c; [done|]. intros _. apply keeps_thread_ret. Qed.

Lemma keeps_thread_getitem {A} (l : list A) i :
  keeps_thread (World:=World) (getitem l i).
Proof. unfold getitem. by destruct (l !! i). Qed.

Create HintDb keeps discriminated.
#[local] Hint Resolve keeps_thread_ret keeps_thread_raise keeps_thread_get_self
  keeps_thread_call : keeps.

Ltac keeps_thread_body :=
  repeat first
    [ assumption
    | apply keeps_thread_assign; by intros []
    | apply keeps_thread_when
    | apply keeps_thread_getitem
    | apply keeps_thread_get_self
    | apply keeps_thread_ret
    | apply keeps_thread_raise
    | apply keeps_thread_bind; [|intros ?] ].

Lemma keeps_thread_reset : keeps_thread (World:=World) reset.
Proof. unfold reset. keeps_thread_body. Qed.

Lemma keeps_thread_call_if_registered key :
  keeps_thread (World:=World) (call_if_registered key).
Proof.
  unfold call_if_registered. apply keeps_thread_bind; [auto with keeps|].
  intros a. destruct (_ !! key); auto with keeps.
Qed.

Lemma keeps_thread_add_callback key func :
  keeps_thread (World:=World) (add_callback key func).
Proof. unfold add_callback. keeps_thread_body. Qed.

Lemma keeps_thread_advance :
  keeps_thread (World:=World) (advance euler_XYZ_as_rotvec).
Proof. unfold advance. keeps_thread_body. Qed.

Lemma keeps_thread_cb_dof state : keeps_thread (World:=World) (_cb_dof state).
Proof. unfold _cb_dof. keeps_thread_body. Qed.

Lemma keeps_thread_cb_button state buttons :
  keeps_thread (World:=World) (_cb_button state buttons).
Proof.
  pose proof keeps_thread_reset as Hreset.
  pose proof (keeps_thread_call_if_registered "L") as HL.
  pose proof (keeps_thread_call_if_registered "R") as HR.
  pose proof (keeps_thread_call_if_registered "LR") as HLR.
  unfold _cb_button, toggle_gripper. keeps_thread_body.
Qed.

Lemma keeps_thread_deliver_all evs :
  keeps_thread (World:=World) (deliver_all evs).
Proof.
  induction evs as [|ev evs IH]; simpl; [apply keeps_thread_ret|].
  apply keeps_thread_bind; [|done].
  destruct ev; [apply keeps_thread_cb_dof|apply keeps_thread_cb_button].
Qed.

(** An iteration of the thread may end it, but the attribute stays assigned. *)
Lemma run_device_iteration_thread evs m :
  is_Some (_thread (self (_run_device_iteration evs m))) ↔
  is_Some (_thread (self m)).
Proof.
  assert (∀ e m', is_Some (_thread (self (thread_ends e m'))) ↔
                  is_Some (_thread (self m'))) as Hends.
  { intros e m'. simpl. destruct (_thread (self m')); simpl; [|done].
    split; intros _; eauto. }
  unfold _run_device_iteration.
  pose proof (keeps_thread_deliver_all evs m) as Hk.
  destruct (deliver_all evs m) as [[u|e] m']; simpl in Hk; rewrite <- Hk.
  - destruct (time_sleep (sleep_rate (self m'))); [apply Hends|done].
  - apply Hends.
Qed.

Lemma step_thread m m' :
  step euler_XYZ_as_rotvec m m' -> is_Some (_thread (self m')) ↔ is_Some (_thread (self m)).
Proof.
  intros [m1|m1|key func m1|evs m1 t Ht Halive].
  - by rewrite keeps_thread_advance.
  - by rewrite keeps_thread_reset.
  - by rewrite keeps_thread_add_callback.
  - apply run_device_iteration_thread.
Qed.

Lemma reachable_thread m m' :
  reachable euler_XYZ_as_rotvec m m' -> is_Some (_thread (self m')) ↔ is_Some (_thread (self m)).
Proof.
  induction 1 as [|m1 m2 m3 Hstep _ IH]; [done|].
  rewrite IH. by apply step_thread.
Qed.

Lemma step_quiet m m' : step euler_XYZ_as_rotvec m m' -> quiet m -> quiet m'.
Proof.
  intros [m1|m1|key func m1|evs m1 t Ht Halive] (Hth & Hg & Hp & Hr).
  - done.
  - rewrite reset_spec. by repeat split.
  - destruct (decide (key ∈ ["L"; "R"; "LR"])) as [Hin|Hout].
    + rewrite add_callback_supported by done. by repeat split.
    + rewrite add_callback_unsupported by done. by repeat split.
  - congruence.
Qed.

Lemma reachable_quiet m m' : reachable euler_XYZ_as_rotvec m m' -> quiet m -> quiet m'.
Proof.
  induction 1 as [|m1 m2 m3 Hstep _ IH]; [done|].
  intros Hq. apply IH. by apply (step_quiet m1).
Qed.

Lemma init_result pos_sens rot_sens rate opened world err :
  (rate =? 0)%float = false ->
  ∃ m0,
    __init__ pos_sens rot_sens rate opened world err = Ok m0 ∧
    _close_gripper (self m0) = false ∧
    _delta_pos (self m0) = zeros 3 ∧
    _delta_rot (self m0) = zeros 3 ∧
    (_thread (self m0) = None ↔ open_failed opened = true).
Proof.
  intros Hrate. unfold __init__. rewrite Hrate.
  destruct opened as [[|]|e]; eexists; (split; [reflexivity|]); simpl;
    repeat split; done.
Qed.

Lemma init_thread pos_sens rot_sens rate opened world err m0 :
  __init__ pos_sens rot_sens rate opened world err = Ok m0 ->
  _thread (self m0) = None ↔ open_failed opened = true.
Proof.
  unfold __init__. destruct (rate =? 0)%float; [discriminate|].
  destruct opened as [[|]|e]; intros [= <-]; simpl; done.
Qed.

(** C9. When [pyspacemouse.open] returns false or raises, the constructor
    (reaching that call, that is for a rate that is not zero) still returns
    an adapter; the adapter has no thread, one diagnostic has been written to
    [sys.stderr], and whatever its owner calls afterwards, no thread appears
    and [advance] returns six zeros and a false latch.  The rotation library
    is taken to turn zero Euler angles into the zero rotation vector. *)
Theorem open_failure_degrades pos_sens rot_sens rate opened world err :
  euler_XYZ_as_rotvec (zeros 3) = zeros 3 ->
  (rate =? 0)%float = false ->
  open_failed opened = true ->
  ∃ m0 detail,
    __init__ pos_sens rot_sens rate opened world err = Ok m0 ∧
    _thread (self m0) = None ∧
    stderr m0 = (err ++ [open_failure_message +:+ detail])%list ∧
    ∀ m, reachable euler_XYZ_as_rotvec m0 m ->
      _thread (self m) = None ∧
      advance euler_XYZ_as_rotvec m = (Ok ([0; 0; 0; 0; 0; 0]%float, false), m).
Proof.
  intros Hzero Hrate Hfail.
  destruct (init_result pos_sens rot_sens rate opened world err Hrate)
    as (m0 & Hinit & Hg & Hp & Hr & Hth).
  apply Hth in Hfail as Hnone.
  exists m0.
  assert (∃ detail, stderr m0 = (err ++ [open_failure_message +:+ detail])%list)
    as [detail Hdiag].
  { revert Hinit. unfold __init__. rewrite Hrate.
    destruct opened as [[|]|e]; [discriminate Hfail| |]; intros [= <-]; simpl;
      eauto. }
  exists detail. split; [exact Hinit|]. split; [exact Hnone|].
  split; [exact Hdiag|].
  intros m Hreach.
  destruct (reachable_quiet m0 m Hreach) as (Hth' & Hg' & Hp' & Hr');
    [by repeat split|].
  split; [exact Hth'|].
  unfold advance, bind, get_self, ret. by rewrite Hp', Hr', Hg', Hzero.
Qed.

(** C10. For an adapter the constructor returned, at any later time: the
    [_thread] attribute is missing exactly when the device failed to open,
    [__del__] raises [AttributeError] exactly then, and it gets as far as
    joining the thread exactly when the device was opened and the thread was
    created. *)
Theorem teardown_raises_iff_open_failed
    pos_sens rot_sens rate opened world err m0 m :
  __init__ pos_sens rot_sens rate opened world err = Ok m0 ->
  reachable euler_XYZ_as_rotvec m0 m ->
  (_thread (self m) = None ↔ open_failed opened = true) ∧
  (__del__ m = TeardownRaises AttributeError ↔ open_failed opened = true) ∧
  (__del__ m ≠ TeardownRaises AttributeError ↔
   opened = OpenReturns true ∧ is_Some (_thread (self m))).
Proof.
  intros Hinit Hreach.
  apply init_thread in Hinit. apply reachable_thread in Hreach.
  assert (_thread (self m) = None ↔ open_failed opened = true) as Hnone.
  { rewrite <- Hinit, !eq_None_not_Some. by rewrite Hreach. }
  split; [done|].
  assert (__del__ m = TeardownRaises AttributeError ↔ _thread (self m) = None)
    as Hdel.
  { unfold __del__. destruct (_thread (self m)) as [t|]; [|done].
    destruct (alive t); split; discriminate. }
  split; [by rewrite Hdel|].
  rewrite Hdel, Hnone.
  destruct opened as [[|]|e]; simpl.
  - rewrite <- not_eq_None_Some. split; [|done]. intros _. split; [done|].
    rewrite Hnone. simpl. discriminate.
  - split; [done|]. by intros [[=] _].
  - split; [done|]. by intros [[=] _].
Qed.

End AdapterProperties.

Section AdapterAtSample.

#[local] Existing Instance sample_runtime.

(** C5, as the spec states it, fails: at the axes (1, 2, 3, 0.1, 0.2, 0.3)
    and the default sensitivities neither vector is the one the spec gives.
    [3 * 0.4] is not the binary64 number [1.2], and [0.1 * 0.8] is not
    [0.08]. *)
Lemma cb_dof_default_event_inexact :
  let m' := (_cb_dof sample_event (sample_adapter ∅)).2 in
  _delta_pos (self m') ≠ [0.8; -0.4; 1.2]%float ∧
  _delta_rot (self m') ≠ [-0.08; -0.16; -0.24]%float.
Proof.
  split; intros H.
  - apply (f_equal (fun v => nth 2 v 0%float)) in H. revert H.
    apply float_neq; vm_compute; reflexivity.
  - apply (f_equal (fun v => nth 0 v 0%float)) in H. revert H.
    apply float_neq; vm_compute; reflexivity.
Qed.

(** C6, as the spec states it, fails: with the left and the right button
    both pressed the latch is true after the callback. *)
Lemma cb_button_left_and_right_latches :
  [true; true] !! 0%nat = Some true ∧
  _close_gripper (self (_cb_button sample_event [true; true] (sample_adapter ∅)).2)
    = true.
Proof. split; vm_compute; reflexivity. Qed.

(** The left button alone, on an adapter with a closed latch. *)
Lemma cb_button_left_resets_witness :
  [true; false] !! 0%nat = Some true ∧
  let m' := (_cb_button sample_event [true; false] (sample_adapter ∅)).2 in
  _delta_pos (self m') = [0; 0; 0]%float ∧
  _delta_rot (self m') = [0; 0; 0]%float ∧
  _close_gripper (self m') = false.
Proof.
  split; [reflexivity|].
  exact (cb_button_left_resets sample_event [true; false]
           (sample_adapter ∅) eq_refl).
Defined.

(** C7, as the spec states it, fails: on a device with a third button that
    is not pressed, pressing left and right together does not run the
    registered "LR" action; the world is as it was. *)
Lemma cb_button_chord_with_third_button :
  let callbacks : gmap string (@Callable (list string)) := {[ "LR" := log "LR" ]} in
  let buttons := [true; true; false] in
  buttons !! 0%nat = Some true ∧
  buttons !! 1%nat = Some true ∧
  callbacks !! "LR" = Some (log "LR") ∧
  (_cb_button sample_event buttons (sample_adapter callbacks)).1 = Ok tt ∧
  env (_cb_button sample_event buttons (sample_adapter callbacks)).2 = [].
Proof. repeat split; vm_compute; reflexivity. Qed.

(** Both buttons of a two-button device: the three actions run in order. *)
Lemma cb_button_all_pressed_witness :
  let callbacks : gmap string (@Callable (list string)) :=
    {[ "L" := log "L"; "R" := log "R"; "LR" := log "LR" ]} in
  (2 ≤ length [true; true])%nat ∧
  forallb id [true; true] = true ∧
  env (_cb_button sample_event [true; true] (sample_adapter callbacks)).2 =
    ["L"; "R"; "LR"].
Proof.
  intros callbacks. split; [simpl; lia|]. split; [reflexivity|].
  rewrite (cb_button_all_pressed sample_event [true; true]
             (sample_adapter callbacks)); [|simpl; lia|reflexivity].
  vm_compute. reflexivity.
Defined.

(** C8, as the spec states it, fails: the key "left" is refused, and the key
    "L", which is none of "left", "right" and "left+right", is taken. *)
Lemma add_callback_left_refused :
  add_callback "left" (log "left") (sample_adapter ∅) =
    (Raise (ValueError
       "Only left (L), right (R), and right-left (LR) buttons supported. Provided: left."),
     sample_adapter ∅) ∧
  ("L" ∉ ["left"; "right"; "left+right"]) ∧
  (add_callback "L" (log "left") (sample_adapter ∅)).1 = Ok tt.
Proof.
  split; [vm_compute; reflexivity|]. split; [|vm_compute; reflexivity].
  intros Hin. apply list_elem_of_In in Hin. simpl in Hin.
  destruct Hin as [H|[H|[H|[]]]]; discriminate H.
Qed.

(** Registering "R" again replaces the action. *)
Lemma add_callback_keys_witness :
  let m := sample_adapter {[ "R" := log "old" ]} in
  "R" ∈ ["L"; "R"; "LR"] ∧
  (add_callback "R" (log "new") m).1 = Ok tt ∧
  _additional_callbacks (self (add_callback "R" (log "new") m).2) !! "R"
    = Some (log "new").
Proof.
  intros m.
  assert (Hkey : "R" ∈ ["L"; "R"; "LR"]) by (apply list_elem_of_In; simpl; tauto).
  split; [exact Hkey|].
  destruct (add_callback_keys "R" (log "new") m) as [Hin _].
  destruct (Hin Hkey) as (Hok & Hnew & _). by split.
Defined.

(** The default constructor call with no device connected. *)
Lemma open_failure_degrades_witness :
  first_order_rotvec (zeros 3) = zeros 3 ∧
  (default_rate =? 0)%float = false ∧
  open_failed (OpenRaises "No device connected") = true ∧
  ∃ m0 detail,
    __init__ default_pos_sensitivity default_rot_sensitivity default_rate
      (OpenRaises "No device connected") tt [] = Ok m0 ∧
    _thread (self m0) = None ∧
    stderr m0 = [open_failure_message +:+ detail] ∧
    ∀ m, reachable first_order_rotvec m0 m ->
      _thread (self m) = None ∧
      advance first_order_rotvec m = (Ok ([0; 0; 0; 0; 0; 0]%float, false), m).
Proof.
  split; [reflexivity|]. split; [reflexivity|]. split; [reflexivity|].
  exact (open_failure_degrades first_order_rotvec default_pos_sensitivity
           default_rot_sensitivity default_rate
           (OpenRaises "No device connected") tt [] eq_refl eq_refl eq_refl).
Defined.

(** Teardown of an adapter whose device did not open, after a [reset]. *)
Lemma teardown_raises_iff_open_failed_witness :
  let m0 := mkMachine
              (mkSe3SpaceMouse 0.4 0.8 (1 / 1000) false (zeros 3) (zeros 3) ∅ None)
              tt [open_failure_message +:+ newline] in
  __init__ default_pos_sensitivity default_rot_sensitivity default_rate
    (OpenReturns false) tt [] = Ok m0 ∧
  reachable first_order_rotvec m0 (reset m0).2 ∧
  __del__ (reset m0).2 = TeardownRaises AttributeError.
Proof.
  intros m0.
  assert (Hinit : __init__ default_pos_sensitivity default_rot_sensitivity
                    default_rate (OpenReturns false) tt [] = Ok m0)
    by reflexivity.
  assert (Hreach : reachable first_order_rotvec m0 (reset m0).2)
    by (apply rtc_once, step_reset).
  split; [exact Hinit|]. split; [exact Hreach|].
  destruct (teardown_raises_iff_open_failed first_order_rotvec
              default_pos_sensitivity default_rot_sensitivity default_rate
              (OpenReturns false) tt [] m0 (reset m0).2 Hinit Hreach)
    as (_ & Hdel & _).
  apply Hdel. reflexivity.
Defined.

End AdapterAtSample.

(** *** More on the methods, one at a time and over the life of an adapter *)

Section AdapterLifetime.

Context {World : Type}.
Variable euler_XYZ_as_rotvec : list float -> list float.
Context {runtime : Runtime}.

Implicit Types m : @Machine World.

(** The three branches of the button callback, each with its guard. *)
Lemma left_branch (b0 : bool) m :
  when b0 (bind reset (fun _ => call_if_registered "L")) m =
    (Ok tt,
     mkMachine
       (mkSe3SpaceMouse (pos_sensitivity (self m)) (rot_sensitivity (self m))
          (sleep_rate (self m))
          (if b0 then false else _close_gripper (self m))
          (if b0 then zeros 3 else _delta_pos (self m))
          (if b0 then zeros 3 else _delta_rot (self m))
          (_additional_callbacks (self m)) (_thread (self m)))
       (if b0 then registered (self m) "L" (env m) else env m)
       (stderr m)).
Proof.
  destruct b0; [apply reset_then_left|].
  by destruct m as [[] ? ?].
Qed.

Lemma right_branch (b1 : bool) m :
  when b1 (bind toggle_gripper (fun _ => call_if_registered "R")) m =
    (Ok tt,
     mkMachine
       (mkSe3SpaceMouse (pos_sensitivity (self m)) (rot_sensitivity (self m))
          (sleep_rate (self m))
          (xorb b1 (_close_gripper (self m)))
          (_delta_pos (self m)) (_delta_rot (self m))
          (_additional_callbacks (self m)) (_thread (self m)))
       (if b1 then registered (self m) "R" (env m) else env m)
       (stderr m)).
Proof.
  destruct b1; [|by destruct m as [[] ? ?]].
  change (when true ?b) with b. by rewrite toggle_then_right.
Qed.

Lemma chord_branch (c : bool) m :
  when c (call_if_registered "LR") m =
    (Ok tt,
     mkMachine (self m)
       (if c then registered (self m) "LR" (env m) else env m) (stderr m)).
Proof.
  destruct c; [apply call_if_registered_spec|]. by destruct m.
Qed.

(** The button callback on a vector of two entries or more. *)
Lemma cb_button_long state (b0 b1 : bool) (rest : list bool) m :
  _cb_button state (b0 :: b1 :: rest) m =
    (Ok tt,
     mkMachine
       (mkSe3SpaceMouse (pos_sensitivity (self m)) (rot_sensitivity (self m))
          (sleep_rate (self m))
          (xorb b1 (if b0 then false else _close_gripper (self m)))
          (if b0 then zeros 3 else _delta_pos (self m))
          (if b0 then zeros 3 else _delta_rot (self m))
          (_additional_callbacks (self m)) (_thread (self m)))
       ((if b0 && (b1 && forallb id rest)
         then registered (self m) "LR" else id)
          ((if b1 then registered (self m) "R" else id)
             ((if b0 then registered (self m) "L" else id) (env m))))
       (stderr m)).
Proof.
  unfold _cb_button.
  rewrite bind_unfold, (getitem_lookup _ _ b0) by done.
  rewrite bind_unfold, left_branch.
  rewrite bind_unfold, (getitem_lookup _ _ b1) by done.
  rewrite bind_unfold, right_branch.
  rewrite chord_branch.
  change (forallb id (b0 :: b1 :: rest)) with (b0 && (b1 && forallb id rest)).
  simpl. by destruct b0, b1, (forallb id rest).
Qed.

(** The button callback on a vector of one entry: the left branch runs,
    then indexing raises. *)
Lemma cb_button_one state (b0 : bool) m :
  _cb_button state [b0] m =
    (Raise IndexError,
     mkMachine
       (mkSe3SpaceMouse (pos_sensitivity (self m)) (rot_sensitivity (self m))
          (sleep_rate (self m))
          (if b0 then false else _close_gripper (self m))
          (if b0 then zeros 3 else _delta_pos (self m))
          (if b0 then zeros 3 else _delta_rot (self m))
          (_additional_callbacks (self m)) (_thread (self m)))
       (if b0 then registered (self m) "L" (env m) else env m)
       (stderr m)).
Proof.
  unfold _cb_button.
  rewrite bind_unfold, (getitem_lookup _ _ b0) by done.
  rewrite bind_unfold, left_branch.
  by rewrite bind_unfold, getitem_out_of_range.
Qed.

Lemma cb_button_nil state m : _cb_button state [] m = (Raise IndexError, m).
Proof. reflexivity. Qed.

Lemma cb_dof_spec state m :
  _cb_dof state m =
    (Ok tt,
     mkMachine
       (mkSe3SpaceMouse (pos_sensitivity (self m)) (rot_sensitivity (self m))
          (sleep_rate (self m)) (_close_gripper (self m))
          [ axis_times (y state) (pos_sensitivity (self m));
            axis_times (axis_neg (x state)) (pos_sensitivity (self m));
            axis_times (z state) (pos_sensitivity (self m)) ]
          [ axis_times (axis_neg (roll state)) (rot_sensitivity (self m));
            axis_times (axis_neg (pitch state)) (rot_sensitivity (self m));
            axis_times (axis_neg (yaw state)) (rot_sensitivity (self m)) ]
          (_additional_callbacks (self m)) (_thread (self m)))
       (env m) (stderr m)).
Proof. reflexivity. Qed.

Lemma advance_spec m :
  advance euler_XYZ_as_rotvec m =
    (Ok ((_delta_pos (self m) ++ euler_XYZ_as_rotvec (_delta_rot (self m)))%list,
         _close_gripper (self m)),
     m).
Proof. reflexivity. Qed.

(** X4. [reset] twice is [reset] once, and right after a [reset] [advance]
    returns six zeros and an open latch, whatever the adapter held. *)
Theorem reset_idempotent_then_advance_zero m :
  euler_XYZ_as_rotvec (zeros 3) = zeros 3 ->
  reset (reset m).2 = reset m ∧
  advance euler_XYZ_as_rotvec (reset m).2 =
    (Ok ([0; 0; 0; 0; 0; 0]%float, false), (reset m).2).
Proof.
  intros Hzero. split; [reflexivity|].
  rewrite advance_spec, reset_spec. simpl. by rewrite Hzero.
Qed.

(** X5. A press of the right button alone flips the latch and leaves the
    deltas; a second one brings every attribute of the adapter back, the "R"
    action having run once for each press. *)
Theorem cb_button_right_twice state1 state2 (rest1 rest2 : list bool) m :
  let m1 := (_cb_button state1 (false :: true :: rest1) m).2 in
  let m2 := (_cb_button state2 (false :: true :: rest2) m1).2 in
  _close_gripper (self m1) = negb (_close_gripper (self m)) ∧
  _delta_pos (self m1) = _delta_pos (self m) ∧
  _delta_rot (self m1) = _delta_rot (self m) ∧
  self m2 = self m ∧
  env m2 = registered (self m) "R" (registered (self m) "R" (env m)).
Proof.
  intros m1 m2. subst m1 m2. rewrite !cb_button_long. simpl.
  repeat split. destruct m as [[? ? ? latch ? ? ? ?] ? ?]. simpl.
  by destruct latch.
Qed.

(** The outcome of the button callback, by the length of the vector. *)
Lemma cb_button_outcome state (buttons : list bool) m :
  (_cb_button state buttons m).1 =
    if bool_decide (2 ≤ length buttons)%nat then Ok tt else Raise IndexError.
Proof.
  destruct buttons as [|b0 [|b1 rest]].
  - reflexivity.
  - by rewrite cb_button_one.
  - rewrite bool_decide_eq_true_2 by (simpl; lia). by rewrite cb_button_long.
Qed.

(** X6. The button callback returns exactly when the vector has two entries
    or more, and raises [IndexError] on a shorter one; the motion callback
    always returns. *)
Theorem cb_button_returns_iff_two_buttons state (buttons : list bool) m :
  (_cb_button state buttons m).1 =
    (if bool_decide (2 ≤ length buttons)%nat then Ok tt else Raise IndexError) ∧
  (_cb_dof state m).1 = Ok tt.
Proof. split; [apply cb_button_outcome|reflexivity]. Qed.

(** X7. A button event never writes the sensitivities, the sleep interval,
    the registry, the thread or the error stream, and it writes the deltas
    only to zero them, when the left button is pressed. *)
Theorem cb_button_touches_latch_and_deltas_only state (buttons : list bool) m :
  let m' := (_cb_button state buttons m).2 in
  pos_sensitivity (self m') = pos_sensitivity (self m) ∧
  rot_sensitivity (self m') = rot_sensitivity (self m) ∧
  sleep_rate (self m') = sleep_rate (self m) ∧
  _additional_callbacks (self m') = _additional_callbacks (self m) ∧
  _thread (self m') = _thread (self m) ∧
  stderr m' = stderr m ∧
  _delta_pos (self m') =
    match buttons !! 0%nat with
    | Some true => zeros 3
    | _ => _delta_pos (self m)
    end ∧
  _delta_rot (self m') =
    match buttons !! 0%nat with
    | Some true => zeros 3
    | _ => _delta_rot (self m)
    end.
Proof.
  destruct buttons as [|b0 [|b1 rest]]; simpl.
  - by repeat split.
  - rewrite cb_button_one. simpl. by destruct b0.
  - rewrite cb_button_long. simpl. by destruct b0.
Qed.

Lemma cb_dof_overwrites state1 state2 m :
  _cb_dof state2 (_cb_dof state1 m).2 = _cb_dof state2 m.
Proof. reflexivity. Qed.

(** X8. Motion events are not accumulated: after any run of them the adapter
    is as if only the last had arrived. *)
Theorem motion_last_wins (states : list SpaceNavigator) (last : SpaceNavigator) m :
  deliver_all (map Motion (states ++ [last])) m = _cb_dof last m.
Proof.
  revert m. induction states as [|state states IH]; intros m.
  - simpl. rewrite bind_unfold, cb_dof_spec. reflexivity.
  - change (deliver_all (map Motion ((state :: states) ++ [last])) m)
      with (bind (_cb_dof state)
              (fun _ => deliver_all (map Motion (states ++ [last]))) m).
    rewrite bind_unfold.
    destruct (_cb_dof state m) as [r m1] eqn:Hstep.
    assert (r = Ok tt ∧ m1 = (_cb_dof state m).2) as [-> ->]
      by (rewrite Hstep; split; [by rewrite cb_dof_spec in Hstep; injection Hstep as <- _|done]).
    rewrite IH. apply cb_dof_overwrites.
Qed.

(** X19. A press of the left button alone leaves the adapter as [reset]
    does, and pressing both buttons of a two-button device at once leaves it
    as a left press followed by a right press does; the world differs by
    the "LR" action, run last. *)
Theorem chord_is_left_then_right state (rest : list bool) m :
  let left := (_cb_button state (true :: false :: rest) m).2 in
  let both := (_cb_button state [true; true] m).2 in
  let in_turn :=
    (_cb_button state [false; true] (_cb_button state [true; false] m).2).2 in
  self left = self (reset m).2 ∧
  self both = self in_turn ∧
  env both = registered (self m) "LR" (env in_turn).
Proof.
  intros left both in_turn. subst left both in_turn.
  rewrite !cb_button_long, reset_spec. by simpl.
Qed.

(** **** Invariants of a constructed adapter *)

Lemma init_well_kept pos_sens rot_sens rate opened (world : World) err m0 :
  __init__ pos_sens rot_sens rate opened world err = Ok m0 ->
  well_kept pos_sens rot_sens rate m0.
Proof.
  unfold __init__. destruct (rate =? 0)%float; [discriminate|].
  destruct opened as [[|]|e]; intros [= <-]; simpl;
    (repeat split; [done..|]); intros key [f Hf];
    first [discriminate Hf | by rewrite lookup_empty in Hf].
Qed.

(** What an event leaves of the settings and of the error stream. *)
Lemma deliver_frame ev m :
  pos_sensitivity (self (deliver ev m).2) = pos_sensitivity (self m) ∧
  rot_sensitivity (self (deliver ev m).2) = rot_sensitivity (self m) ∧
  sleep_rate (self (deliver ev m).2) = sleep_rate (self m) ∧
  stderr (deliver ev m).2 = stderr m.
Proof.
  destruct ev as [state|state buttons]; cbn [deliver].
  - by rewrite cb_dof_spec.
  - destruct buttons as [|b0 [|b1 rest]].
    + done.
    + by rewrite cb_button_one.
    + by rewrite cb_button_long.
Qed.

Lemma deliver_all_frame evs m :
  pos_sensitivity (self (deliver_all evs m).2) = pos_sensitivity (self m) ∧
  rot_sensitivity (self (deliver_all evs m).2) = rot_sensitivity (self m) ∧
  sleep_rate (self (deliver_all evs m).2) = sleep_rate (self m) ∧
  stderr (deliver_all evs m).2 = stderr m.
Proof.
  revert m. induction evs as [|ev evs IH]; intros m; [done|].
  change (deliver_all (ev :: evs) m) with
    (bind (deliver ev) (fun _ => deliver_all evs) m).
  rewrite bind_unfold.
  pose proof (deliver_frame ev m) as (Hp & Hr & Hs & He).
  destruct (deliver ev m) as [[u|e] m1]; simpl in *; [|done].
  destruct (IH m1) as (Hp1 & Hr1 & Hs1 & He1).
  by rewrite Hp1, Hr1, Hs1, He1.
Qed.

Lemma deliver_well_kept pos_sens rot_sens rate ev m :
  well_kept pos_sens rot_sens rate m ->
  well_kept pos_sens rot_sens rate (deliver ev m).2.
Proof.
  intros (Hp & Hr & Hs & Hlp & Hlr & Hk).
  destruct ev as [state|state buttons]; cbn [deliver].
  - rewrite cb_dof_spec. by repeat split.
  - destruct buttons as [|b0 [|b1 rest]].
    + by repeat split.
    + rewrite cb_button_one. by destruct b0; repeat split.
    + rewrite cb_button_long. by destruct b0; repeat split.
Qed.

Lemma deliver_all_well_kept pos_sens rot_sens rate evs m :
  well_kept pos_sens rot_sens rate m ->
  well_kept pos_sens rot_sens rate (deliver_all evs m).2.
Proof.
  revert m. induction evs as [|ev evs IH]; intros m Hm; [done|].
  change (deliver_all (ev :: evs) m) with
    (bind (deliver ev) (fun _ => deliver_all evs) m).
  rewrite bind_unfold.
  pose proof (deliver_well_kept _ _ _ ev m Hm) as Hstep.
  destruct (deliver ev m) as [[u|e] m1]; simpl in *; [by apply IH|done].
Qed.

Lemma thread_ends_well_kept pos_sens rot_sens rate e m :
  well_kept pos_sens rot_sens rate m ->
  well_kept pos_sens rot_sens rate (thread_ends e m).
Proof. intros (Hp & Hr & Hs & Hlp & Hlr & Hk). by repeat split. Qed.

Lemma run_device_iteration_well_kept pos_sens rot_sens rate evs m :
  well_kept pos_sens rot_sens rate m ->
  well_kept pos_sens rot_sens rate (_run_device_iteration evs m).
Proof.
  intros Hm. unfold _run_device_iteration.
  pose proof (deliver_all_well_kept _ _ _ evs m Hm) as Hall.
  destruct (deliver_all evs m) as [[u|e] m2]; simpl in Hall.
  - destruct (time_sleep (sleep_rate (self m2)));
      [by apply thread_ends_well_kept|done].
  - by apply thread_ends_well_kept.
Qed.

Lemma step_well_kept pos_sens rot_sens rate m m' :
  step euler_XYZ_as_rotvec m m' ->
  well_kept pos_sens rot_sens rate m ->
  well_kept pos_sens rot_sens rate m'.
Proof.
  intros [m1|m1|key func m1|evs m1 t Ht Halive] Hm.
  - done.
  - destruct Hm as (Hp & Hr & Hs & Hlp & Hlr & Hk).
    rewrite reset_spec. by repeat split.
  - destruct Hm as (Hp & Hr & Hs & Hlp & Hlr & Hk).
    destruct (decide (key ∈ ["L"; "R"; "LR"])) as [Hin|Hout].
    + rewrite add_callback_supported by done. simpl.
      repeat split; [done..|]. intros key' Hsome. simpl in Hsome.
      destruct (decide (key = key')) as [<-|Hne]; [done|].
      rewrite lookup_insert_ne in Hsome by done. by apply Hk.
    + rewrite add_callback_unsupported by done. by repeat split.
  - by apply run_device_iteration_well_kept.
Qed.

Lemma reachable_well_kept pos_sens rot_sens rate m m' :
  reachable euler_XYZ_as_rotvec m m' ->
  well_kept pos_sens rot_sens rate m ->
  well_kept pos_sens rot_sens rate m'.
Proof.
  induction 1 as [|m1 m2 m3 Hstep _ IH]; [done|].
  intros Hm. apply IH. by apply (step_well_kept _ _ _ m1).
Qed.




(** X9. For an adapter the constructor returned, at any later time and
    whatever the device sent: [advance] returns, leaves the adapter as it
    is, and gives six scalars, the first three being [_delta_pos], with the
    latch.  The rotation library is taken to give three scalars for three
    angles. *)
Theorem advance_six_scalars pos_sens rot_sens rate opened (world : World) err m0 m :
  (∀ angles, length angles = 3%nat ->
     length (euler_XYZ_as_rotvec angles) = 3%nat) ->
  __init__ pos_sens rot_sens rate opened world err = Ok m0 ->
  reachable euler_XYZ_as_rotvec m0 m ->
  ∃ v,
    advance euler_XYZ_as_rotvec m = (Ok (v, _close_gripper (self m)), m) ∧
    length v = 6%nat ∧
    take 3 v = _delta_pos (self m).
Proof.
  intros Hlen Hinit Hreach.
  apply init_well_kept in Hinit.
  destruct (reachable_well_kept _ _ _ _ _ Hreach Hinit)
    as (_ & _ & _ & Hlp & Hlr & _).
  eexists. split; [apply advance_spec|].
  split.
  - rewrite length_app, Hlp, Hlen; done.
  - by rewrite take_app_length' by done.
Qed.


(** X11. The registry of a constructed adapter never holds a key other than
    "L", "R" and "LR". *)
Theorem registry_keys_supported
    pos_sens rot_sens rate opened (world : World) err m0 m key :
  __init__ pos_sens rot_sens rate opened world err = Ok m0 ->
  reachable euler_XYZ_as_rotvec m0 m ->
  is_Some (_additional_callbacks (self m) !! key) ->
  key ∈ ["L"; "R"; "LR"].
Proof.
  intros Hinit Hreach. apply init_well_kept in Hinit.
  destruct (reachable_well_kept _ _ _ _ _ Hreach Hinit)
    as (_ & _ & _ & _ & _ & Hk). apply Hk.
Qed.

(** **** Registering actions *)

(** X12. Registering twice under one key is registering the second action
    alone: the outcome and the state are the same. *)
Theorem add_callback_last_wins key (f g : @Callable World) m :
  add_callback key g (add_callback key f m).2 = add_callback key g m.
Proof.
  destruct (decide (key ∈ ["L"; "R"; "LR"])) as [Hin|Hout].
  - rewrite !add_callback_supported by done. simpl.
    unfold with_additional_callbacks. simpl. by rewrite insert_insert_eq.
  - by rewrite !add_callback_unsupported by done.
Qed.

(** X13. Registrations under different keys do not depend on their order. *)
Theorem add_callback_commute key1 key2 (f g : @Callable World) m :
  key1 ≠ key2 ->
  (add_callback key2 g (add_callback key1 f m).2).2 =
  (add_callback key1 f (add_callback key2 g m).2).2.
Proof.
  intros Hne.
  destruct (decide (key1 ∈ ["L"; "R"; "LR"])) as [Hin1|Hout1];
    destruct (decide (key2 ∈ ["L"; "R"; "LR"])) as [Hin2|Hout2];
    rewrite ?add_callback_supported, ?add_callback_unsupported by done;
    simpl;
    rewrite ?add_callback_supported, ?add_callback_unsupported by done;
    simpl; try done.
  unfold with_additional_callbacks. simpl. by rewrite insert_insert_ne.
Qed.

Lemma registered_insert_eq (a : @Se3SpaceMouse World) key f :
  registered (with_additional_callbacks (<[key := f]> (_additional_callbacks a)) a)
    key = f.
Proof. unfold registered. simpl. by rewrite lookup_insert_eq. Qed.

Lemma registered_insert_ne (a : @Se3SpaceMouse World) key other f :
  key ≠ other ->
  registered (with_additional_callbacks (<[key := f]> (_additional_callbacks a)) a)
    other = registered a other.
Proof. intros Hne. unfold registered. simpl. by rewrite lookup_insert_ne. Qed.

Lemma supported_L : "L" ∈ ["L"; "R"; "LR"].
Proof. apply list_elem_of_In. simpl. tauto. Qed.

Lemma supported_R : "R" ∈ ["L"; "R"; "LR"].
Proof. apply list_elem_of_In. simpl. tauto. Qed.

Lemma supported_LR : "LR" ∈ ["L"; "R"; "LR"].
Proof. apply list_elem_of_In. simpl. tauto. Qed.

(** X14. An action registered under "L" is what the next press of the left
    button alone runs, one registered under "R" what the next press of the
    right button alone runs, and one registered under "LR" runs after the
    "L" and "R" actions when both buttons of a two-button device are
    pressed. *)
Theorem registered_action_runs_on_press state (f : @Callable World)
    (rest : list bool) m :
  env (_cb_button state (true :: false :: rest) (add_callback "L" f m).2).2
    = f (env m) ∧
  env (_cb_button state (false :: true :: rest) (add_callback "R" f m).2).2
    = f (env m) ∧
  env (_cb_button state [true; true] (add_callback "LR" f m).2).2
    = f (registered (self m) "R" (registered (self m) "L" (env m))).
Proof.
  rewrite (add_callback_supported "L"), (add_callback_supported "R"),
    (add_callback_supported "LR") by auto using supported_L, supported_R, supported_LR.
  rewrite !cb_button_long. simpl.
  rewrite !registered_insert_eq, !registered_insert_ne by done. done.
Qed.

(** **** Construction *)

(** X15. The constructor raises exactly for a rate that compares equal to
    zero, of either sign, and then it is [ZeroDivisionError], whatever the
    device does. *)
Theorem init_raises_iff_zero_rate pos_sens rot_sens rate opened (world : World) err :
  ((∃ e, __init__ pos_sens rot_sens rate opened world err = Raise e) ↔
   (rate =? 0)%float = true) ∧
  (∀ e, __init__ pos_sens rot_sens rate opened world err = Raise e ->
        e = ZeroDivisionError) ∧
  __init__ pos_sens rot_sens (-0)%float opened world err = Raise ZeroDivisionError.
Proof.
  unfold __init__. split; [|split; [|reflexivity]].
  - destruct (rate =? 0)%float; [split; eauto|].
    split; [|discriminate]. intros [e He]. by destruct opened as [[|]|].
  - intros e. destruct (rate =? 0)%float; [by intros [= <-]|].
    by destruct opened as [[|]|].
Qed.

(** **** The background thread *)

Lemma deliver_all_outcome evs m :
  (deliver_all evs m).1 =
    if forallb well_formed evs then Ok tt else Raise IndexError.
Proof.
  revert m. induction evs as [|ev evs IH]; intros m; [done|].
  change (deliver_all (ev :: evs) m) with
    (bind (deliver ev) (fun _ => deliver_all evs) m).
  rewrite bind_unfold. cbn [forallb].
  destruct ev as [state|state buttons]; cbn [deliver well_formed andb].
  - rewrite cb_dof_spec. apply IH.
  - pose proof (cb_button_outcome state buttons m) as Hout.
    destruct (_cb_button state buttons m) as [r m1]. simpl in Hout. subst r.
    destruct (bool_decide _); simpl; [apply IH|done].
Qed.

Lemma thread_alive_Some m :
  thread_alive m = true ->
  ∃ t, _thread (self m) = Some t ∧ alive t = true.
Proof.
  unfold thread_alive. destruct (_thread (self m)) as [t|]; [eauto|done].
Qed.

Lemma thread_ends_not_alive e m : thread_alive (thread_ends e m) = false.
Proof. unfold thread_alive. simpl. by destruct (_thread (self m)). Qed.

Lemma run_device_iteration_alive evs m :
  thread_alive m = true ->
  thread_alive (_run_device_iteration evs m) =
    forallb well_formed evs && sleeps (sleep_rate (self m)).
Proof.
  intros Halive. unfold _run_device_iteration, sleeps.
  pose proof (deliver_all_outcome evs m) as Hout.
  pose proof (keeps_thread_deliver_all evs m) as Hth.
  destruct (deliver_all_frame evs m) as (_ & _ & Hs & _).
  destruct (deliver_all evs m) as [r m1]. simpl in *. subst r.
  destruct (forallb well_formed evs); simpl.
  - rewrite Hs. destruct (time_sleep (sleep_rate (self m)));
      [apply thread_ends_not_alive|].
    unfold thread_alive in *. by rewrite Hth.
  - apply thread_ends_not_alive.
Qed.

Lemma run_device_iteration_well_formed evs m :
  forallb well_formed evs = true ->
  sleeps (sleep_rate (self m)) = true ->
  _run_device_iteration evs m = (deliver_all evs m).2.
Proof.
  intros Hwf Hsleep. unfold _run_device_iteration, sleeps in *.
  pose proof (deliver_all_outcome evs m) as Hout. rewrite Hwf in Hout.
  destruct (deliver_all_frame evs m) as (_ & _ & Hs & _).
  destruct (deliver_all evs m) as [r m1]. simpl in *. subst r.
  rewrite Hs. by destruct (time_sleep (sleep_rate (self m))).
Qed.

Lemma run_device_iteration_sleep_rate evs m :
  sleep_rate (self (_run_device_iteration evs m)) = sleep_rate (self m).
Proof.
  unfold _run_device_iteration.
  destruct (deliver_all_frame evs m) as (_ & _ & Hs & _).
  destruct (deliver_all evs m) as [[u|e] m1]; simpl in *; [|done].
  by destruct (time_sleep (sleep_rate (self m1))).
Qed.

Lemma deliver_all_app evs1 evs2 m :
  deliver_all (evs1 ++ evs2) m =
    bind (deliver_all evs1) (fun _ => deliver_all evs2) m.
Proof.
  revert m. induction evs1 as [|ev evs1 IH]; intros m; [done|].
  change (deliver_all ((ev :: evs1) ++ evs2) m) with
    (bind (deliver ev) (fun _ => deliver_all (evs1 ++ evs2)) m).
  change (deliver_all (ev :: evs1)) with
    (bind (World:=World) (deliver ev) (fun _ => deliver_all evs1)).
  rewrite !bind_unfold.
  destruct (deliver ev m) as [[u|e] m1]; [apply IH|done].
Qed.

Lemma run_device_stopped reads m :
  thread_alive m = false -> _run_device reads m = m.
Proof. intros H. destruct reads; simpl; [done|by rewrite H]. Qed.

Lemma run_device_reachable reads m :
  reachable euler_XYZ_as_rotvec m (_run_device reads m).
Proof.
  revert m. induction reads as [|evs reads IH]; intros m; simpl; [apply rtc_refl|].
  destruct (thread_alive m) eqn:Halive; [|apply rtc_refl].
  apply thread_alive_Some in Halive as (t & Ht & Ha).
  eapply rtc_l; [by apply (step_poll _ evs m t)|apply IH].
Qed.

Lemma run_device_alive reads m :
  thread_alive m = true ->
  thread_alive (_run_device reads m) =
    forallb (fun evs => forallb well_formed evs && sleeps (sleep_rate (self m)))
      reads.
Proof.
  revert m. induction reads as [|evs reads IH]; intros m Halive; simpl; [done|].
  rewrite Halive.
  pose proof (run_device_iteration_alive evs m Halive) as Hnext.
  destruct (forallb well_formed evs && sleeps (sleep_rate (self m))); simpl.
  - rewrite IH by done. by rewrite run_device_iteration_sleep_rate.
  - by rewrite run_device_stopped.
Qed.

Lemma run_device_thread reads m :
  is_Some (_thread (self (_run_device reads m))) ↔ is_Some (_thread (self m)).
Proof.
  revert m. induction reads as [|evs reads IH]; intros m; simpl; [done|].
  destruct (thread_alive m); [|done].
  by rewrite IH, run_device_iteration_thread.
Qed.

Lemma run_device_well_formed reads m :
  thread_alive m = true ->
  sleeps (sleep_rate (self m)) = true ->
  forallb (forallb well_formed) reads = true ->
  _run_device reads m = (deliver_all (concat reads) m).2 ∧
  thread_alive (_run_device reads m) = true.
Proof.
  revert m. induction reads as [|evs reads IH]; intros m Halive Hsleep Hwf;
    [done|].
  simpl in Hwf. apply andb_true_iff in Hwf as [Hevs Hreads].
  simpl. rewrite Halive, run_device_iteration_well_formed by done.
  pose proof (run_device_iteration_alive evs m Halive) as Hnext.
  rewrite Hevs, Hsleep, run_device_iteration_well_formed in Hnext by done.
  pose proof (run_device_iteration_sleep_rate evs m) as Hrate.
  rewrite run_device_iteration_well_formed in Hrate by done.
  rewrite deliver_all_app, bind_unfold.
  pose proof (deliver_all_outcome evs m) as Hout. rewrite Hevs in Hout.
  destruct (deliver_all evs m) as [r m1]. simpl in *. subst r.
  apply IH; [done| |done]. by rewrite Hrate.
Qed.

(** X16. While [time.sleep] takes the adapter's interval and every event
    is one the callbacks take, the loop of [_run_device] is the delivery of
    all events in the order the driver produced them, read after read, and
    the thread is still alive after it; every state the loop reaches is one
    the adapter can be in. *)
Theorem run_device_delivers_in_order (reads : list (list DriverEvent)) m :
  thread_alive m = true ->
  sleeps (sleep_rate (self m)) = true ->
  forallb (forallb well_formed) reads = true ->
  _run_device reads m = (deliver_all (concat reads) m).2 ∧
  thread_alive (_run_device reads m) = true ∧
  reachable euler_XYZ_as_rotvec m (_run_device reads m).
Proof.
  intros Halive Hsleep Hwf.
  destruct (run_device_well_formed reads m Halive Hsleep Hwf) as [Heq Hlive].
  split; [done|]. split; [done|]. apply run_device_reachable.
Qed.

(** X17. After the device opened, teardown waits for the thread without end
    exactly as long as every iteration of the loop went through: every event
    of the read was one the callbacks take, and [time.sleep] took the
    interval [1.0 / rate].  Once a button vector with fewer than two entries
    has reached the thread, or once the sleep has raised (as it does from
    the first iteration on for a negative rate), the thread is over and
    teardown returns. *)
Theorem teardown_blocks_unless_thread_died
    pos_sens rot_sens rate (world : World) err m0 (reads : list (list DriverEvent)) :
  __init__ pos_sens rot_sens rate (OpenReturns true) world err = Ok m0 ->
  __del__ (_run_device reads m0) =
    if forallb (fun evs => forallb well_formed evs && sleeps (1 / rate)%float)
         reads
    then Blocked else Joined.
Proof.
  intros Hinit.
  assert (thread_alive m0 = true ∧ sleep_rate (self m0) = (1 / rate)%float)
    as [Halive Hrate].
  { revert Hinit. unfold __init__. destruct (rate =? 0)%float; [discriminate|].
    by intros [= <-]. }
  pose proof (run_device_alive reads m0 Halive) as Hrun.
  rewrite Hrate in Hrun.
  apply thread_alive_Some in Halive as (t & Ht & _).
  assert (is_Some (_thread (self (_run_device reads m0)))) as [t' Ht'].
  { apply run_device_thread. by rewrite Ht. }
  unfold __del__. unfold thread_alive in Hrun. rewrite Ht' in Hrun |- *.
  by rewrite Hrun.
Qed.

End AdapterLifetime.

Section LifetimeAtSample.

#[local] Existing Instance sample_runtime.

(** **** The adapter over a concrete run *)

(** The adapter the default constructor call returns when the device
    opens, on a world that logs the actions run. *)
Definition sample_opened : @Machine (list string) :=
  mkMachine
    (mkSe3SpaceMouse default_pos_sensitivity default_rot_sensitivity
       (1 / default_rate) false (zeros 3) (zeros 3) ∅
       (Some (mkThread true true)))
    [] [].

(** Two reads of the driver: a motion and a right press, then a left press
    and a motion. *)
Definition sample_reads : list (list DriverEvent) :=
  [ [Motion sample_event; Buttons sample_event [false; true]];
    [Buttons sample_event [true; false]; Motion sample_event] ].

(** A read that hands over a button vector of one entry. *)
Definition short_reads : list (list DriverEvent) :=
  [ [Buttons sample_event [true]]; [Motion sample_event] ].

Lemma sample_opened_init :
  __init__ default_pos_sensitivity default_rot_sensitivity default_rate
    (OpenReturns true) [] [] = Ok sample_opened.
Proof. reflexivity. Defined.

(** [reset] on an adapter in use, then [advance]. *)
Lemma reset_idempotent_then_advance_zero_witness :
  let m := sample_adapter ∅ in
  first_order_rotvec (zeros 3) = zeros 3 ∧
  reset (reset m).2 = reset m ∧
  advance first_order_rotvec (reset m).2 =
    (Ok ([0; 0; 0; 0; 0; 0]%float, false), (reset m).2).
Proof.
  intros m. split; [reflexivity|].
  exact (reset_idempotent_then_advance_zero first_order_rotvec m eq_refl).
Defined.

(** [advance] after the two sample reads. *)
Lemma advance_six_scalars_witness :
  let m := _run_device sample_reads sample_opened in
  (∀ angles, length angles = 3%nat ->
     length (first_order_rotvec angles) = 3%nat) ∧
  reachable first_order_rotvec sample_opened m ∧
  ∃ v,
    advance first_order_rotvec m = (Ok (v, _close_gripper (self m)), m) ∧
    length v = 6%nat ∧
    take 3 v = _delta_pos (self m).
Proof.
  intros m.
  assert (Hlen : ∀ angles, length angles = 3%nat ->
                   length (first_order_rotvec angles) = 3%nat)
    by (intros angles H; exact H).
  assert (Hreach : reachable first_order_rotvec sample_opened m)
    by apply run_device_reachable.
  split; [exact Hlen|]. split; [exact Hreach|].
  exact (advance_six_scalars first_order_rotvec _ _ _ _ _ _ _ m Hlen
           sample_opened_init Hreach).
Defined.


(** The registry after one registration. *)
Lemma registry_keys_supported_witness :
  let m := (add_callback "LR" (log "LR") sample_opened).2 in
  reachable first_order_rotvec sample_opened m ∧
  is_Some (_additional_callbacks (self m) !! "LR") ∧
  "LR" ∈ ["L"; "R"; "LR"].
Proof.
  intros m.
  assert (Hreach : reachable first_order_rotvec sample_opened m)
    by (apply rtc_once, step_add_callback).
  assert (Hsome : is_Some (_additional_callbacks (self m) !! "LR"))
    by (exists (log "LR"); reflexivity).
  split; [exact Hreach|]. split; [exact Hsome|].
  exact (registry_keys_supported first_order_rotvec _ _ _ _ _ _ _ m "LR"
           sample_opened_init Hreach Hsome).
Defined.

(** "L" then "R", and "R" then "L". *)
Lemma add_callback_commute_witness :
  "L" ≠ "R" ∧
  (add_callback "R" (log "R") (add_callback "L" (log "L") sample_opened).2).2 =
  (add_callback "L" (log "L") (add_callback "R" (log "R") sample_opened).2).2.
Proof.
  assert (Hne : "L" ≠ "R") by discriminate.
  split; [exact Hne|].
  exact (add_callback_commute "L" "R" (log "L") (log "R") sample_opened Hne).
Defined.

(** The two sample reads on the opened adapter. *)
Lemma run_device_delivers_in_order_witness :
  thread_alive sample_opened = true ∧
  sleeps (sleep_rate (self sample_opened)) = true ∧
  forallb (forallb well_formed) sample_reads = true ∧
  _run_device sample_reads sample_opened =
    (deliver_all (concat sample_reads) sample_opened).2 ∧
  thread_alive (_run_device sample_reads sample_opened) = true ∧
  reachable first_order_rotvec sample_opened
    (_run_device sample_reads sample_opened).
Proof.
  split; [reflexivity|]. split; [reflexivity|]. split; [reflexivity|].
  exact (run_device_delivers_in_order first_order_rotvec sample_reads
           sample_opened eq_refl eq_refl eq_refl).
Defined.

(** The adapter a rate of -1000 gives: its sleep interval is negative. *)
Definition negative_rate_opened : @Machine (list string) :=
  mkMachine
    (mkSe3SpaceMouse default_pos_sensitivity default_rot_sensitivity
       (1 / -1000) false (zeros 3) (zeros 3) ∅ (Some (mkThread true true)))
    [] [].

(** Teardown after the sample reads, after a read with a one-entry button
    vector, and after the sample reads at a negative rate. *)
Lemma teardown_blocks_unless_thread_died_witness :
  __init__ default_pos_sensitivity default_rot_sensitivity default_rate
    (OpenReturns true) [] [] = Ok sample_opened ∧
  __init__ default_pos_sensitivity default_rot_sensitivity (-1000)
    (OpenReturns true) [] [] = Ok negative_rate_opened ∧
  __del__ (_run_device sample_reads sample_opened) = Blocked ∧
  __del__ (_run_device short_reads sample_opened) = Joined ∧
  __del__ (_run_device sample_reads negative_rate_opened) = Joined.
Proof.
  assert (Hneg : __init__ default_pos_sensitivity default_rot_sensitivity
                   (-1000) (OpenReturns true) [] [] = Ok negative_rate_opened)
    by reflexivity.
  split; [exact sample_opened_init|]. split; [exact Hneg|].
  split; [|split].
  - exact (teardown_blocks_unless_thread_died _ _ _ _ _ _ sample_reads
             sample_opened_init).
  - exact (teardown_blocks_unless_thread_died _ _ _ _ _ _ short_reads
             sample_opened_init).
  - exact (teardown_blocks_unless_thread_died _ _ _ _ _ _ sample_reads Hneg).
Defined.

End LifetimeAtSample.

End SpaceMouse.
